(** * landingai.common: prediction value objects and the bitmap RLE decoder

    A shallow embedding of [src/landingai/common.py].

    Conventions of the model.
    - A Python [str] is a Rocq [string]; its characters are the code points
      below 256 (the bitmap format is ASCII).
    - A Python [int] is a [Z]; a Python [list] of ints is a [list Z].
      Lists and integers are unbounded: memory and the greatest length of
      a list are not modelled, and neither is the interpreter's setting
      [sys.set_int_max_str_digits]; the properties that depend on the
      setting are stated for literals within its default.
    - A [Dict[str, int]] is a [gmap string Z].
    - A raised exception is the [Raise] outcome of a [result]. *)

From Stdlib Require Import ZArith QArith Ascii String List Lia Bool.
From Stdlib Require Import DecimalString DecimalN DecimalPos DecimalFacts.
From stdpp Require Import base option gmap strings list fin_maps.
Import ListNotations.

Local Open Scope Z_scope.

(** ** Exceptions and outcomes *)

(** The exception classes that occur in the module: [KeyError] carries the
    missing key.  [MalformedBitmapError], [ShapeMismatchError] and
    [InvalidGeometryError] are the kinds that the specification (section 7)
    names; the module defines no such class and nothing below raises them. *)
Inductive exception : Type :=
  | KeyError (key : string)
  | ValueError
  | NotImplementedError
  | ZeroDivisionError
  | OverflowError
  | MalformedBitmapError
  | ShapeMismatchError
  | InvalidGeometryError.

Inductive result (A : Type) : Type :=
  | Return (a : A)
  | Raise (e : exception).
Arguments Return {A} a.
Arguments Raise {A} e.

Definition result_bind {A B} (r : result A) (k : A -> result B) : result B :=
  match r with
  | Return a => k a
  | Raise e => Raise e
  end.

(** ** Python built-ins used by the decoder *)

Module Py.

(** The characters that [int()] strips around a literal: the ASCII
    white space of [Py_ISSPACE], and the two Latin-1 code points that
    Unicode classifies as white space (NEL and NBSP). *)
Definition is_space (c : ascii) : bool :=
  let n := nat_of_ascii c in
  ((9 <=? n) && (n <=? 13) || (n =? 32) || (n =? 133) || (n =? 160))%nat.

Definition digit_value (c : ascii) : option Z :=
  let n := nat_of_ascii c in
  if ((48 <=? n) && (n <=? 57))%nat then Some (Z.of_nat n - 48) else None.

Fixpoint lstrip (s : string) : string :=
  match s with
  | String c r => if is_space c then lstrip r else s
  | EmptyString => s
  end.

(** The digit scan of [PyLong_FromString] in base 10, after the first
    digit: digits accumulate; a single underscore may separate two digits;
    the scan stops at the first other character and returns the value and
    the unread rest.  [prev_us] records that the previous character was an
    underscore: a second one, or the end of the scan, is then an error. *)
Fixpoint scan_digits (acc : Z) (prev_us : bool) (s : string)
  : option (Z * string) :=
  match s with
  | EmptyString => if prev_us then None else Some (acc, s)
  | String c r =>
      match digit_value c with
      | Some d => scan_digits (10 * acc + d) false r
      | None =>
          if Ascii.eqb c "_" then
            if prev_us then None else scan_digits acc true r
          else if prev_us then None else Some (acc, s)
      end
  end.

(** [int(s)] for a [str] argument: optional white space, an optional
    sign, decimal digits (at least one), optional white space, nothing
    else.  [None] stands for the [ValueError] that [int] raises.

    Since version 3.11 the interpreter also refuses, with [ValueError], a
    literal of more than [sys.get_int_max_str_digits()] digits, 4300 unless
    it is configured otherwise or switched off.  That setting is not a
    parameter here: [int] is [int] with the limit switched off, and
    [within_digit_limit] below marks the literals that are read alike with
    the default limit. *)
Definition int (s : string) : option Z :=
  let s1 := lstrip s in
  let '(sign, s2) :=
    match s1 with
    | String "+" r => (1, r)
    | String "-" r => (-1, r)
    | _ => (1, s1)
    end in
  match s2 with
  | String c r =>
      match digit_value c with
      | Some d =>
          match scan_digits d false r with
          | Some (v, rest) =>
              match lstrip rest with
              | EmptyString => Some (sign * v)
              | _ => None
              end
          | None => None
          end
      | None => None
      end
  | EmptyString => None
  end.

(** The default of [sys.get_int_max_str_digits()].  A literal that is no
    longer than the limit has no more digits than the limit. *)
Definition int_max_str_digits : nat := 4300.

Definition within_digit_limit (s : string) : bool :=
  (String.length s <=? int_max_str_digits)%nat.

(** The range of [Py_ssize_t], the index type to which the count of a
    repetition is converted. *)
Definition ssize_t_min : Z := - 2 ^ 63.


(** [[x] * n]: the count is converted to a [Py_ssize_t] first, which raises
    [OverflowError] for a count below the range, whatever the list; then a
    list repeated a non-positive number of times is empty.  A count above
    the range raises [OverflowError] too, and one near its end
    [MemoryError]: these are limits on the length of a list, which, like
    memory, is not bounded here. *)
Definition list_mul {A} (x : A) (n : Z) : result (list A) :=
  if n <? ssize_t_min then Raise OverflowError
  else Return (repeat x (Z.to_nat n)).

(** [zip] applied to two references to one iterator over [l]: both
    arguments advance the same iterator, so consecutive elements are
    paired; an unpaired last element is consumed and dropped. *)
Fixpoint zip_pairs {A} (l : list A) : list (A * A) :=
  match l with
  | a :: b :: r => (a, b) :: zip_pairs r
  | _ => []
  end.

(** The pattern [(Z|N)] matches one character. *)
Definition is_delimiter (c : ascii) : bool :=
  Ascii.eqb c "Z" || Ascii.eqb c "N".

(** [re.split("(Z|N)", s)]: the text between matches, and, because of the
    capture group, every match itself.  With [k] matches the list has
    [2k+1] items: text, match, text, ..., match, text. *)
Fixpoint re_split (s : string) : list string :=
  match s with
  | EmptyString => [EmptyString]
  | String c r =>
      if is_delimiter c then EmptyString :: String c EmptyString :: re_split r
      else match re_split r with
           | t :: ts => String c t :: ts
           | [] => [String c EmptyString]
           end
  end.

End Py.

(** ** decode_bitmap_rle *)

(** The body of the [for] loop, over the pairs still to come, with the
    [flat_mask] built so far.  The subscript [encoding_map[map_letter]] is
    evaluated first and raises [KeyError]; [int(map_number)] is the identity
    on an int; [int(num)] raises [ValueError]; the repetition raises
    [OverflowError]; then [extend] appends. *)
Fixpoint decode_loop (encoding_map : gmap string Z) (flat_mask : list Z)
    (items : list (string * string)) : result (list Z) :=
  match items with
  | [] => Return flat_mask
  | (num, map_letter) :: rest =>
      match encoding_map !! map_letter with
      | None => Raise (KeyError map_letter)
      | Some map_number =>
          match Py.int num with
          | None => Raise ValueError
          | Some n =>
              match Py.list_mul map_number n with
              | Raise e => Raise e
              | Return repeated =>
                  decode_loop encoding_map (flat_mask ++ repeated) rest
              end
          end
      end
  end.

Definition decode_bitmap_rle (bitmap : string) (encoding_map : gmap string Z)
  : result (list Z) :=
  let flat_mask := [] in
  let bitmap_list := Py.re_split bitmap in
  decode_loop encoding_map flat_mask (Py.zip_pairs bitmap_list).

(** ** A state-and-error monad for methods

    A method runs on its object and may store into the object's
    [__dict__]; it returns a value or raises.  What was stored before an
    exception stays stored. *)

Definition M (S A : Type) : Type := S -> result A * S.

Definition ret {S A} (a : A) : M S A := fun self => (Return a, self).
Definition raise {S A} (e : exception) : M S A := fun self => (Raise e, self).
Definition lift {S A} (r : result A) : M S A := fun self => (r, self).
Definition bind {S A B} (m : M S A) (k : A -> M S B) : M S B :=
  fun self =>
    match m self with
    | (Return a, self') => k a self'
    | (Raise e, self') => (Raise e, self')
    end.
Definition field {S A} (get : S -> A) : M S A := fun self => (Return (get self), self).

Notation "'do' x <- m ; k" := (bind m (fun x => k))
  (at level 10, x name, m at level 100, k at level 200).

(** [functools.cached_property]: the [__dict__] entry is returned when it is
    there; otherwise the body runs and its value is stored, unless it
    raised. *)
Definition cached_property {S A} (lookup : S -> option A) (store : A -> S -> S)
    (body : M S A) : M S A :=
  fun self =>
    match lookup self with
    | Some val => (Return val, self)
    | None =>
        match body self with
        | (Return val, self') => (Return val, store val self')
        | (Raise e, self') => (Raise e, self')
        end
    end.

(** ** NumPy and math operations used by the mask properties *)

Module np.

(** A two-dimensional [uint8] array: its shape and its elements in C
    (row-major) order. *)
Record ndarray : Type := { shape : Z * Z; data : list Z }.

(** Conversion of a Python int to [uint8] as NumPy 1.x does it, by
    wrap-around.  It leaves the bits 0 and 1 as they are, and the properties
    below are about sequences of bits. *)
Definition uint8 (v : Z) : Z := v mod 256.

(** [np.array(l, dtype=np.uint8)], a one-dimensional array. *)
Definition array_uint8 (l : list Z) : list Z := map uint8 l.

(** [a.reshape((h, w))] for a one-dimensional [a]: the product of the shape
    has to be the size of [a].  NumPy takes a negative entry (-1 in its
    documentation) as the one dimension to infer from the size; the
    properties below are about shapes without a negative entry.  Every
    failure is a [ValueError]. *)
Definition reshape (a : list Z) (newshape : Z * Z) : result ndarray :=
  let '(h, w) := newshape in
  let size := Z.of_nat (length a) in
  if (h <? 0) && (w <? 0) then Raise ValueError
  else if h <? 0 then
    if (w =? 0) || negb (size mod w =? 0) then Raise ValueError
    else Return {| shape := (size / w, w); data := a |}
  else if w <? 0 then
    if (h =? 0) || negb (size mod h =? 0) then Raise ValueError
    else Return {| shape := (h, size / h); data := a |}
  else if h * w =? size then Return {| shape := (h, w); data := a |}
  else Raise ValueError.

Definition count_nonzero (a : ndarray) : Z :=
  Z.of_nat (length (List.filter (fun v => negb (v =? 0)) (data a))).

(** [a[i, j]] for indices inside the shape. *)
Definition item (a : ndarray) (i j : Z) : option Z :=
  let '(h, w) := shape a in
  if (0 <=? i) && (i <? h) && (0 <=? j) && (j <? w)
  then data a !! Z.to_nat (i * w + j) else None.

End np.

Module math.

(** [math.prod] of a pair of ints. *)
Definition prod (t : Z * Z) : Z := fst t * snd t.

End math.

(** [a / b] on two ints.  Python returns the double nearest to the exact
    quotient; the model keeps the exact quotient. *)
Definition truediv (a b : Z) : result Q :=
  if b =? 0 then Raise ZeroDivisionError else Return (inject_Z a / inject_Z b)%Q.

(** Building an object and reading one of its properties. *)
Definition read {S A} (r : result S) (m : M S A) : result A :=
  result_bind r (fun self => fst (m self)).

(** ** The prediction classes *)

(** Every class has the attribute [num_predicted_pixels]; reading it runs on
    the object. *)
Class HasNumPredictedPixels (A : Type) : Type :=
  num_predicted_pixels : M A Z.

(** A subclass that does not define the attribute finds it in its base
    class, and the base class's code runs on the object. *)
Definition inherited {A B} (base : A -> B) (m : M B Z) : M A Z :=
  fun self => (fst (m (base self)), self).

(** [score] is a float; no property reads it, and the model keeps a
    rational. *)
Record Prediction : Type := { score : Q }.

(** The property of the base class. *)
#[global] Instance Prediction_num_predicted_pixels
  : HasNumPredictedPixels Prediction :=
  raise NotImplementedError.

Record ClassificationPrediction : Type := {
  classification_base : Prediction;
  label_name : string;
  label_index : Z
}.

#[global] Instance ClassificationPrediction_num_predicted_pixels
  : HasNumPredictedPixels ClassificationPrediction :=
  inherited classification_base num_predicted_pixels.

Record OcrPrediction : Type := {
  ocr_base : Prediction;
  text : string;
  location : list (Z * Z)
}.

#[global] Instance OcrPrediction_num_predicted_pixels
  : HasNumPredictedPixels OcrPrediction :=
  inherited ocr_base num_predicted_pixels.

(** [t[i]] on a 4-tuple, for the indices 0 to 3. *)
Definition getitem4 (t : Z * Z * Z * Z) (i : nat) : Z :=
  let '(t0, t1, t2, t3) := t in
  match i with
  | O => t0
  | 1%nat => t1
  | 2%nat => t2
  | _ => t3
  end.

Module ObjectDetectionPrediction.

(** The fields, and the [__dict__] entry of the cached property. *)
Record t : Type := {
  base : ClassificationPrediction;
  id : string;
  bboxes : Z * Z * Z * Z;
  dict_num_predicted_pixels : option Z
}.

Definition store_num_predicted_pixels (val : Z) (self : t) : t :=
  {| base := base self; id := id self; bboxes := bboxes self;
     dict_num_predicted_pixels := Some val |}.

(** The class declares no validator: construction stores the fields. *)
Definition new (score : Q) (label_name : string) (label_index : Z)
    (id : string) (bboxes : Z * Z * Z * Z) : result t :=
  Return {| base := {| classification_base := {| score := score |};
                       label_name := label_name;
                       label_index := label_index |};
            id := id; bboxes := bboxes;
            dict_num_predicted_pixels := None |}.

Definition num_predicted_pixels_body : M t Z :=
  do b <- field bboxes ;
  ret ((getitem4 b 2 - getitem4 b 0) * (getitem4 b 3 - getitem4 b 1)).

#[global] Instance num_predicted_pixels_instance : HasNumPredictedPixels t :=
  cached_property dict_num_predicted_pixels store_num_predicted_pixels
    num_predicted_pixels_body.

(** The objects that a program can hold: built by the constructor, then
    read any number of times. *)
Inductive reachable : t -> Prop :=
  | reachable_new score label_name label_index id bboxes self :
      new score label_name label_index id bboxes = Return self ->
      reachable self
  | reachable_num_predicted_pixels self :
      reachable self -> reachable (snd (num_predicted_pixels self)).

(** What the [__dict__] holds is what the body computes. *)
Definition coherent (self : t) : Prop :=
  forall val, dict_num_predicted_pixels self = Some val ->
    fst (num_predicted_pixels_body self) = Return val.

End ObjectDetectionPrediction.

Module SegmentationPrediction.

(** The fields, and the [__dict__] entries of the cached properties.
    [decoded_index_mask] and [decoded_colored_mask] (OpenCV, a random
    colour) are left out; reading either reads [decoded_boolean_mask]
    first. *)
Record t : Type := {
  base : ClassificationPrediction;
  id : string;
  encoded_mask : string;
  encoding_map : gmap string Z;
  mask_shape : Z * Z;
  dict_decoded_boolean_mask : option np.ndarray;
  dict_num_predicted_pixels : option Z;
  dict_percentage_predicted_pixels : option Q
}.

Definition store_decoded_boolean_mask (val : np.ndarray) (self : t) : t :=
  {| base := base self; id := id self; encoded_mask := encoded_mask self;
     encoding_map := encoding_map self; mask_shape := mask_shape self;
     dict_decoded_boolean_mask := Some val;
     dict_num_predicted_pixels := dict_num_predicted_pixels self;
     dict_percentage_predicted_pixels := dict_percentage_predicted_pixels self |}.

Definition store_num_predicted_pixels (val : Z) (self : t) : t :=
  {| base := base self; id := id self; encoded_mask := encoded_mask self;
     encoding_map := encoding_map self; mask_shape := mask_shape self;
     dict_decoded_boolean_mask := dict_decoded_boolean_mask self;
     dict_num_predicted_pixels := Some val;
     dict_percentage_predicted_pixels := dict_percentage_predicted_pixels self |}.

Definition store_percentage_predicted_pixels (val : Q) (self : t) : t :=
  {| base := base self; id := id self; encoded_mask := encoded_mask self;
     encoding_map := encoding_map self; mask_shape := mask_shape self;
     dict_decoded_boolean_mask := dict_decoded_boolean_mask self;
     dict_num_predicted_pixels := dict_num_predicted_pixels self;
     dict_percentage_predicted_pixels := Some val |}.

Definition new (score : Q) (label_name : string) (label_index : Z)
    (id : string) (encoded_mask : string) (encoding_map : gmap string Z)
    (mask_shape : Z * Z) : result t :=
  Return {| base := {| classification_base := {| score := score |};
                       label_name := label_name;
                       label_index := label_index |};
            id := id; encoded_mask := encoded_mask;
            encoding_map := encoding_map; mask_shape := mask_shape;
            dict_decoded_boolean_mask := None;
            dict_num_predicted_pixels := None;
            dict_percentage_predicted_pixels := None |}.

Definition decoded_boolean_mask_body : M t np.ndarray :=
  do bitmap <- field encoded_mask ;
  do map <- field encoding_map ;
  do flattened_bitmap <- lift (decode_bitmap_rle bitmap map) ;
  do newshape <- field mask_shape ;
  do seg_mask_channel <- lift (np.reshape (np.array_uint8 flattened_bitmap) newshape) ;
  ret seg_mask_channel.

Definition decoded_boolean_mask : M t np.ndarray :=
  cached_property dict_decoded_boolean_mask store_decoded_boolean_mask
    decoded_boolean_mask_body.

Definition num_predicted_pixels_body : M t Z :=
  do mask <- decoded_boolean_mask ;
  ret (np.count_nonzero mask).

#[global] Instance num_predicted_pixels_instance : HasNumPredictedPixels t :=
  cached_property dict_num_predicted_pixels store_num_predicted_pixels
    num_predicted_pixels_body.

Definition percentage_predicted_pixels_body : M t Q :=
  do mask <- decoded_boolean_mask ;
  do newshape <- field mask_shape ;
  lift (truediv (np.count_nonzero mask) (math.prod newshape)).

Definition percentage_predicted_pixels : M t Q :=
  cached_property dict_percentage_predicted_pixels
    store_percentage_predicted_pixels percentage_predicted_pixels_body.

(** The objects that a program can hold: built by the constructor, then
    read any number of times through the properties. *)
Inductive reachable : t -> Prop :=
  | reachable_new score label_name label_index id encoded_mask encoding_map
      mask_shape self :
      new score label_name label_index id encoded_mask encoding_map mask_shape
      = Return self ->
      reachable self
  | reachable_decoded_boolean_mask self :
      reachable self -> reachable (snd (decoded_boolean_mask self))
  | reachable_num_predicted_pixels self :
      reachable self -> reachable (snd (num_predicted_pixels self))
  | reachable_percentage_predicted_pixels self :
      reachable self -> reachable (snd (percentage_predicted_pixels self)).

(** The mask as the fields determine it, whatever the [__dict__] holds. *)
Definition mask_of_fields (self : t) : result np.ndarray :=
  result_bind (decode_bitmap_rle (encoded_mask self) (encoding_map self))
    (fun flat => np.reshape (np.array_uint8 flat) (mask_shape self)).

(** Every [__dict__] entry is the value that its property computes from
    the fields. *)
Definition coherent (self : t) : Prop :=
  (forall a, dict_decoded_boolean_mask self = Some a ->
     mask_of_fields self = Return a) /\
  (forall n, dict_num_predicted_pixels self = Some n ->
     exists a, mask_of_fields self = Return a /\ n = np.count_nonzero a) /\
  (forall q, dict_percentage_predicted_pixels self = Some q ->
     exists a, mask_of_fields self = Return a /\
       truediv (np.count_nonzero a) (math.prod (mask_shape self)) = Return q).

(** A read keeps the fields, so the mask they determine, and keeps the
    [__dict__] coherent. *)
Definition kept (self self' : t) : Prop :=
  mask_of_fields self' = mask_of_fields self /\
  mask_shape self' = mask_shape self /\
  coherent self'.

End SegmentationPrediction.

(** ** Bitmaps written as runs *)

(** A run of the bitmap format: a count, the delimiter character that
    follows it, and the value that the encoding map gives the delimiter. *)
Record run : Type := { count : N; delimiter : ascii; value : Z }.

(** The decimal numeral of a count. *)
Definition decimal (n : N) : string := NilEmpty.string_of_uint (N.to_uint n).

(** The value of a decimal numeral read from the left, [acc] being the value
    of the digits already read. *)
Fixpoint uint_value (acc : Z) (u : Decimal.uint) : Z :=
  match u with
  | Decimal.Nil => acc
  | Decimal.D0 u' => uint_value (10 * acc + 0) u'
  | Decimal.D1 u' => uint_value (10 * acc + 1) u'
  | Decimal.D2 u' => uint_value (10 * acc + 2) u'
  | Decimal.D3 u' => uint_value (10 * acc + 3) u'
  | Decimal.D4 u' => uint_value (10 * acc + 4) u'
  | Decimal.D5 u' => uint_value (10 * acc + 5) u'
  | Decimal.D6 u' => uint_value (10 * acc + 6) u'
  | Decimal.D7 u' => uint_value (10 * acc + 7) u'
  | Decimal.D8 u' => uint_value (10 * acc + 8) u'
  | Decimal.D9 u' => uint_value (10 * acc + 9) u'
  end.

Definition token (r : run) : string :=
  decimal (count r) +:+ String (delimiter r) EmptyString.

Fixpoint bitmap_of (rs : list run) : string :=
  match rs with
  | [] => EmptyString
  | r :: rs' => token r +:+ bitmap_of rs'
  end.

Definition expand (rs : list run) : list Z :=
  flat_map (fun r => repeat (value r) (N.to_nat (count r))) rs.

(** The run's delimiter is one that the decoder splits on, and the map
    gives it the run's value. *)
Definition run_in (m : gmap string Z) (r : run) : Prop :=
  Py.is_delimiter (delimiter r) = true /\
  m !! String (delimiter r) EmptyString = Some (value r).

Fixpoint no_delimiter (s : string) : bool :=
  match s with
  | EmptyString => true
  | String c r => negb (Py.is_delimiter c) && no_delimiter r
  end.

(** A bitmap written as raw (token, delimiter) pairs. *)
Fixpoint join (ps : list (string * ascii)) : string :=
  match ps with
  | [] => EmptyString
  | (num, d) :: ps' => num +:+ String d (join ps')
  end.


(** Modelled from the spec: the run-length encoder, which is on the
    service's side and not in the repository.  [rle] gives the maximal runs
    of a bit sequence; [rle_encode] writes them as alternating decimal
    counts and delimiters, [char_of b] being the delimiter of bit [b]. *)
Fixpoint rle (bits : list bool) : list (N * bool) :=
  match bits with
  | [] => []
  | b :: rest =>
      match rle rest with
      | (n, b') :: rs =>
          if Bool.eqb b b' then (N.succ n, b) :: rs
          else (1%N, b) :: (n, b') :: rs
      | [] => [(1%N, b)]
      end
  end.

Definition run_of (char_of : bool -> ascii) (nb : N * bool) : run :=
  {| count := fst nb; delimiter := char_of (snd nb); value := Z.b2z (snd nb) |}.

Definition rle_encode (char_of : bool -> ascii) (bits : list bool) : string :=
  bitmap_of (map (run_of char_of) (rle bits)).

(** A mask of shape (h, w) as its rows; flattening is row-major. *)
Definition flatten (M : list (list bool)) : list bool := concat M.

(** The number of entries of a sequence that are 1. *)
Definition count_ones (flat : list Z) : Z :=
  Z.of_nat (length (List.filter (fun v => v =? 1) flat)).

Definition is_bit (v : Z) : Prop := v = 0 \/ v = 1.

(** ** Bitmaps cut into tokens *)

(** The bitmap read as the decoder reads it: the (token, delimiter) pairs in
    order, and the token that is left after the last delimiter. *)
Fixpoint tokenize (s : string) : list (string * ascii) * string :=
  match s with
  | EmptyString => ([], EmptyString)
  | String c r =>
      let '(ps, t) := tokenize r in
      if Py.is_delimiter c then ((EmptyString, c) :: ps, t)
      else match ps with
           | (num, d) :: ps' => ((String c num, d) :: ps', t)
           | [] => ([], String c t)
           end
  end.

(** The bitmap is empty or ends with a delimiter: nothing is left after the
    last pair. *)
Fixpoint complete (s : string) : bool :=
  match s with
  | EmptyString => true
  | String c r =>
      match r with
      | EmptyString => Py.is_delimiter c
      | String _ _ => complete r
      end
  end.

(** The pairs as the loop sees them: the delimiter is a one-character
    string. *)
Definition loop_item (p : string * ascii) : string * string :=
  (fst p, String (snd p) EmptyString).

(** A pair that the split can produce: no delimiter inside the token, a
    delimiter after it. *)
Definition split_pair (p : string * ascii) : Prop :=
  no_delimiter (fst p) = true /\ Py.is_delimiter (snd p) = true.

(** The run-length that a token stands for in the output: what [int] reads,
    a negative number counting as none. *)
Definition run_length (num : string) : nat :=
  match Py.int num with
  | Some n => Z.to_nat n
  | None => O
  end.

(** ** Encoding maps of the examples *)

(** The encoding map of the docstrings, and the delimiter of each bit. *)
Definition ZN : gmap string Z := {[ "Z" := 0; "N" := 1 ]}.
Definition ZN_char (b : bool) : ascii := (if b then "N" else "Z")%char.

(** An encoding map over two other letters, and one over two digits. *)
Definition AB : gmap string Z := {[ "A" := 0; "B" := 1 ]}.
Definition AB_char (b : bool) : ascii := (if b then "B" else "A")%char.
Definition digits01 : gmap string Z := {[ "0" := 0; "1" := 1 ]}.
Definition digits01_char (b : bool) : ascii := (if b then "1" else "0")%char.

(** ** What the three reads of a segmentation prediction return *)

Definition observe (self : SegmentationPrediction.t)
  : result np.ndarray * result Z * result Q :=
  (fst (SegmentationPrediction.decoded_boolean_mask self),
   fst (num_predicted_pixels self),
   fst (SegmentationPrediction.percentage_predicted_pixels self)).



(** ** Outcomes beyond the built-in exceptions *)

(** What a call can raise besides a built-in exception: OpenCV's
    [cv2.error], and the exception by which Streamlit's [st.stop] ends the
    script run. *)
Inductive raised : Type :=
  | builtin (e : exception)
  | cv2_error
  | StopException.

Inductive outcome (A : Type) : Type :=
  | Done (a : A)
  | Raised (r : raised).
Arguments Done {A} a.
Arguments Raised {A} r.

(** Code that runs in a world [S]: the object with the generator of random
    numbers, or the Streamlit session. *)
Definition W (S A : Type) : Type := S -> outcome A * S.

Definition W_ret {S A} (a : A) : W S A := fun s => (Done a, s).
Definition W_raise {S A} (r : raised) : W S A := fun s => (Raised r, s).
Definition W_bind {S A B} (m : W S A) (k : A -> W S B) : W S B :=
  fun s =>
    match m s with
    | (Done a, s') => k a s'
    | (Raised r, s') => (Raised r, s')
    end.

Notation "'perform' x <- m ; k" := (W_bind m (fun x => k))
  (at level 10, x name, m at level 100, k at level 200).

Definition outcome_of_result {A} (r : result A) : outcome A :=
  match r with
  | Return a => Done a
  | Raise e => Raised (builtin e)
  end.

(** A method of a part [S] of the world [T], run in the world. *)
Definition within {S T A} (part : T -> S) (update : S -> T -> T) (m : M S A)
  : W T A :=
  fun t => let '(r, s') := m (part t) in (outcome_of_result r, update s' t).

(** ** Three-dimensional arrays, OpenCV and NumPy's random numbers *)

Module np3.

(** A [uint8] array of shape (height, width, channels), in C order. *)
Record ndarray : Type := { shape : Z * Z * Z; data : list Z }.

(** [a[i, j, c]] for indices inside the shape. *)
Definition item (a : ndarray) (i j c : Z) : option Z :=
  let '(h, w, ch) := shape a in
  if (0 <=? i) && (i <? h) && (0 <=? j) && (j <? w) && (0 <=? c) && (c <? ch)
  then data a !! Z.to_nat ((i * w + j) * ch + c) else None.

(** [np.expand_dims(a, -1)]: a last axis of length 1. *)
Definition expand_dims (a : np.ndarray) : ndarray :=
  let '(h, w) := np.shape a in {| shape := (h, w, 1); data := np.data a |}.

(** [a * color] for a one-dimensional [uint8] array [color]: the last axis
    of [a] has to have the length of [color] (or one of the two lengths is
    1, which does not occur here); entry (i, j, c) is multiplied by
    [color[c]], in [uint8], so with wrap-around.  A mismatch is a
    [ValueError]. *)
Definition mul_color (a : ndarray) (color : list Z) : result ndarray :=
  let '(h, w, ch) := shape a in
  if ch =? Z.of_nat (length color) then
    Return {| shape := shape a;
              data := imap (fun k v =>
                        np.uint8 (v * nth (k mod length color) color 0))
                        (data a) |}
  else Raise ValueError.

End np3.

Module cv2.

(** [cv2.cvtColor(src, cv2.COLOR_GRAY2RGB)]: the source has one channel and
    is not empty, otherwise OpenCV raises [cv2.error]; the grey value is
    written to the three channels. *)
Definition cvtColor_GRAY2RGB (src : np3.ndarray) : outcome np3.ndarray :=
  let '(h, w, ch) := np3.shape src in
  if (h * w * ch =? 0) || negb (ch =? 1) then Raised cv2_error
  else Done {| np3.shape := (h, w, 3);
               np3.data := flat_map (fun v => [v; v; v]) (np3.data src) |}.

End cv2.

Module np_random.

(** The global generator: the numbers it will produce, as raw integers, and
    how many it has produced. *)
Record RandomState : Type := { stream : nat -> Z; position : nat }.

Definition advance (n : nat) (g : RandomState) : RandomState :=
  {| stream := stream g; position := (position g + n)%nat |}.

(** [np.random.randint(low, high, size=size, dtype=np.uint8)]: [size]
    numbers from [low] to [high - 1]; [ValueError] when the range is empty
    or leaves [uint8].  Which numbers come is the generator's business: a
    raw number [x] stands for [low + x mod (high - low)]. *)
Definition randint (low high : Z) (size : nat) : W RandomState (list Z) :=
  fun g =>
    if (high <=? low) || (low <? 0) || (256 <? high)
    then (Raised (builtin ValueError), g)
    else (Done (map (fun k => low + stream g (position g + k)%nat mod (high - low))
                  (seq 0 size)),
          advance size g).

End np_random.

(** [a * k] for a [uint8] array and a Python int from 0 to 255: the result
    is a [uint8] array, each entry multiplied with wrap-around.  For another
    [k] NumPy changes the type of the result or refuses, depending on its
    version; the properties below are about label indices from 0 to 255. *)
Definition mul_scalar (a : np.ndarray) (k : Z) : np.ndarray :=
  {| np.shape := np.shape a;
     np.data := map (fun v => np.uint8 (v * k)) (np.data a) |}.

Module SegmentationMasks.

(** A [SegmentationPrediction] with the [__dict__] entries of its two other
    cached properties. *)
Record t : Type := {
  prediction : SegmentationPrediction.t;
  dict_decoded_index_mask : option np.ndarray;
  dict_decoded_colored_mask : option np3.ndarray
}.

Definition new (p : SegmentationPrediction.t) : t :=
  {| prediction := p; dict_decoded_index_mask := None;
     dict_decoded_colored_mask := None |}.

Definition with_prediction (p : SegmentationPrediction.t) (self : t) : t :=
  {| prediction := p;
     dict_decoded_index_mask := dict_decoded_index_mask self;
     dict_decoded_colored_mask := dict_decoded_colored_mask self |}.

Definition store_decoded_index_mask (val : np.ndarray) (self : t) : t :=
  {| prediction := prediction self;
     dict_decoded_index_mask := Some val;
     dict_decoded_colored_mask := dict_decoded_colored_mask self |}.

Definition store_decoded_colored_mask (val : np3.ndarray) (self : t) : t :=
  {| prediction := prediction self;
     dict_decoded_index_mask := dict_decoded_index_mask self;
     dict_decoded_colored_mask := Some val |}.

(** [self.decoded_boolean_mask], read from the larger object. *)
Definition decoded_boolean_mask : M t np.ndarray :=
  fun self =>
    let '(r, p) := SegmentationPrediction.decoded_boolean_mask (prediction self) in
    (r, with_prediction p self).

Definition decoded_index_mask_body : M t np.ndarray :=
  do mask <- decoded_boolean_mask ;
  do label_index <- field (fun self =>
    label_index (SegmentationPrediction.base (prediction self))) ;
  ret (mul_scalar mask label_index).

Definition decoded_index_mask : M t np.ndarray :=
  cached_property dict_decoded_index_mask store_decoded_index_mask
    decoded_index_mask_body.

(** The object and the generator of [np.random]. *)
Record world : Type := { self : t; random_state : np_random.RandomState }.

Definition with_self (s : t) (w : world) : world :=
  {| self := s; random_state := random_state w |}.

Definition with_random_state (g : np_random.RandomState) (w : world) : world :=
  {| self := self w; random_state := g |}.

Definition randint (low high : Z) (size : nat) : W world (list Z) :=
  fun w =>
    let '(o, g) := np_random.randint low high size (random_state w) in
    (o, with_random_state g w).

Definition decoded_colored_mask_body : W world np3.ndarray :=
  perform mask <- within self with_self decoded_boolean_mask ;
  perform mask_3d <- W_ret (np3.expand_dims mask) ;
  perform mask_3d <- (fun w => (cv2.cvtColor_GRAY2RGB mask_3d, w)) ;
  perform random_color <- randint 0 255 3 ;
  fun w => (outcome_of_result (np3.mul_color mask_3d random_color), w).

(** [functools.cached_property] on the object of the world. *)
Definition decoded_colored_mask : W world np3.ndarray :=
  fun w =>
    match dict_decoded_colored_mask (self w) with
    | Some val => (Done val, w)
    | None =>
        match decoded_colored_mask_body w with
        | (Done val, w') =>
            (Done val, with_self (store_decoded_colored_mask val (self w')) w')
        | (Raised r, w') => (Raised r, w')
        end
    end.

End SegmentationMasks.

(** ** base64 and UTF-8 *)

Module base64.

Definition alphabet : string :=
  "ABCDEFGHIJKLMNOPQRSTUVWXYZabcdefghijklmnopqrstuvwxyz0123456789+/".

(** The character of a six-bit value. *)
Definition char (n : Z) : ascii :=
  default "="%char (String.get (Z.to_nat n) alphabet).

(** [base64.b64encode]: three bytes give four characters; one or two bytes
    that are left at the end give two or three characters and padding. *)
Fixpoint b64encode (bytes : list Z) : string :=
  match bytes with
  | [] => EmptyString
  | [a] =>
      String (char (a / 4)) (String (char (a mod 4 * 16))
        (String "="%char (String "="%char EmptyString)))
  | [a; b] =>
      String (char (a / 4)) (String (char (a mod 4 * 16 + b / 16))
        (String (char (b mod 16 * 4)) (String "="%char EmptyString)))
  | a :: b :: c :: rest =>
      String (char (a / 4)) (String (char (a mod 4 * 16 + b / 16))
        (String (char (b mod 16 * 4 + c / 64)) (String (char (c mod 64))
          (b64encode rest))))
  end.

(** The six-bit value of a character of the alphabet. *)
Definition value (c : ascii) : option Z :=
  let n := Z.of_nat (nat_of_ascii c) in
  if (65 <=? n) && (n <=? 90) then Some (n - 65)
  else if (97 <=? n) && (n <=? 122) then Some (n - 71)
  else if (48 <=? n) && (n <=? 57) then Some (n + 4)
  else if n =? 43 then Some 62
  else if n =? 47 then Some 63
  else None.

(** The inverse of [b64encode], on strings that it produces. *)
Fixpoint b64decode_fuel (fuel : nat) (s : string) : option (list Z) :=
  match fuel with
  | O => match s with EmptyString => Some [] | _ => None end
  | S fuel' =>
      match s with
      | EmptyString => Some []
      | String c0 (String c1 (String c2 (String c3 rest))) =>
          match value c0, value c1 with
          | Some v0, Some v1 =>
              let a := v0 * 4 + v1 / 16 in
              if Ascii.eqb c2 "=" then
                if Ascii.eqb c3 "=" then
                  match rest with EmptyString => Some [a] | _ => None end
                else None
              else
                match value c2 with
                | Some v2 =>
                    let b := v1 mod 16 * 16 + v2 / 4 in
                    if Ascii.eqb c3 "=" then
                      match rest with EmptyString => Some [a; b] | _ => None end
                    else
                      match value c3, b64decode_fuel fuel' rest with
                      | Some v3, Some l => Some (a :: b :: (v2 mod 4 * 64 + v3) :: l)
                      | _, _ => None
                      end
                | None => None
                end
          | _, _ => None
          end
      | _ => None
      end
  end.

Definition b64decode (s : string) : option (list Z) :=
  b64decode_fuel (String.length s) s.

End base64.

Module utf8.

(** [str.encode("utf-8")] for the characters below 256: one byte below 128,
    two bytes from 128 on. *)
Definition encode_char (c : ascii) : list Z :=
  let n := Z.of_nat (nat_of_ascii c) in
  if n <? 128 then [n] else [192 + n / 64; 128 + n mod 64].

Fixpoint encode (s : string) : list Z :=
  match s with
  | EmptyString => []
  | String c r => (encode_char c ++ encode r)%list
  end.

(** The inverse of [encode], on the bytes that it produces. *)
Fixpoint decode (bytes : list Z) : option string :=
  match bytes with
  | [] => Some EmptyString
  | a :: rest =>
      if a <? 128 then
        option_map (String (ascii_of_nat (Z.to_nat a))) (decode rest)
      else
        match rest with
        | b :: rest' =>
            option_map (String (ascii_of_nat (Z.to_nat ((a - 192) * 64 + (b - 128)))))
              (decode rest')
        | [] => None
        end
  end.

End utf8.

(** ** landingai.st_utils: the Streamlit helpers of the example apps

    A shallow embedding of [src/landingai/st_utils.py].  Streamlit is the
    part of the world that the helpers call: the session state, the page on
    which calls show things, and the user's input.  [setup_page], which
    configures the process-wide logging and the page, is left out. *)

Module st_utils.

(** A call on the page that leaves something on it. *)
Inductive event : Type :=
  | error (body : string)
  | info (body : string)
  | write (body : string) (unsafe_allow_html : bool)
  | form (key : string)
  | text_input (label key value : string) (password : bool)
  | form_submit_button (label : string).

(** What the helpers run in: whether [import streamlit] succeeds,
    [st.session_state], [os.environ], what the user does with the widgets
    ([typed key value] is what the text input with that widget key returns
    when it is shown with the default [value]; [submitted] is what the
    submit button returns), the calls on the page so far, oldest first, and
    the warnings logged so far.

    [st.session_state] is held in two parts, by the type of the values:
    [session_state] has the entries that hold strings, which are what the
    app stores and the text that Streamlit keeps for a text input under its
    widget key; [form_submitters] has the entries that hold booleans, which
    are what Streamlit keeps for the submit button of a form.  The keys
    that the helpers read are taken to hold strings when they are
    present. *)
Record world : Type := {
  streamlit : bool;
  session_state : gmap string string;
  form_submitters : gmap string bool;
  environ : gmap string string;
  typed : string -> string -> string;
  submitted : bool;
  page : list event;
  log : list string
}.

Definition with_session_state (s : gmap string string) (w : world) : world :=
  {| streamlit := streamlit w; session_state := s;
     form_submitters := form_submitters w; environ := environ w;
     typed := typed w; submitted := submitted w; page := page w; log := log w |}.

Definition with_form_submitters (f : gmap string bool) (w : world) : world :=
  {| streamlit := streamlit w; session_state := session_state w;
     form_submitters := f; environ := environ w;
     typed := typed w; submitted := submitted w; page := page w; log := log w |}.

Definition with_page (p : list event) (w : world) : world :=
  {| streamlit := streamlit w; session_state := session_state w;
     form_submitters := form_submitters w;
     environ := environ w; typed := typed w; submitted := submitted w;
     page := p; log := log w |}.

Definition with_log (l : list string) (w : world) : world :=
  {| streamlit := streamlit w; session_state := session_state w;
     form_submitters := form_submitters w;
     environ := environ w; typed := typed w; submitted := submitted w;
     page := page w; log := l |}.

(** A call [st.f(...)] that shows something. *)
Definition show (e : event) : W world unit :=
  fun w => (Done tt, with_page (page w ++ [e]) w).

(** [st.stop()]. *)
Definition stop : W world unit := W_raise StopException.

(** [st.session_state.get(key)], [st.session_state[key]] (a [KeyError] that
    names the key when it is missing), [key in st.session_state] and
    [st.session_state[key] = value]. *)
Definition session_get (key : string) : W world (option string) :=
  fun w => (Done (session_state w !! key), w).

Definition session_getitem (key : string) : W world string :=
  fun w =>
    match session_state w !! key with
    | Some v => (Done v, w)
    | None => (Raised (builtin (KeyError key)), w)
    end.

Definition session_contains (key : string) : W world bool :=
  fun w => (Done (bool_decide (is_Some (session_state w !! key))), w).

Definition session_setitem (key value : string) : W world unit :=
  fun w => (Done tt, with_session_state (<[key := value]> (session_state w)) w).

(** [os.environ.get(key)] and [_LOGGER.warning(msg)]. *)
Definition environ_get (key : string) : W world (option string) :=
  fun w => (Done (environ w !! key), w).

Definition logger_warning (msg : string) : W world unit :=
  fun w => (Done tt, with_log (log w ++ [msg]) w).

(** The truth value of a string, and of a string or [None]. *)
Definition truthy (s : string) : bool :=
  match s with EmptyString => false | String _ _ => true end.

Definition truthy_opt (o : option string) : bool :=
  match o with Some s => truthy s | None => false end.

Definition _DEFAULT_API_KEY_ENV_VAR : string := "LANDINGAI_API_KEY".

Definition _import_st : W world unit :=
  fun w =>
    if streamlit w then (Done tt, w) else (Raised (builtin ValueError), w).

Definition check_api_credentials_set : W world unit :=
  perform _ <- _import_st ;
  perform api_key <- session_get "api_key" ;
  let otherwise :=
    perform _ <- show (error "Please open the sidebar and enter your API credential first.") ;
    stop in
  match api_key with
  | Some key =>
      if truthy key then
        if String.prefix "land_sk_" key then W_ret tt
        else
          perform api_secret <- session_get "api_secret" ;
          if truthy_opt api_secret then W_ret tt else otherwise
      else otherwise
  | None => otherwise
  end.

Definition check_endpoint_id_set : W world unit :=
  perform _ <- _import_st ;
  perform endpoint_id <- session_get "endpoint_id" ;
  if truthy_opt endpoint_id then W_ret tt
  else
    perform _ <- show (error "Please open the sidebar and enter your CloudInference endpoint ID first.") ;
    stop.

Definition get_default_api_key : W world (option string) :=
  perform default_key <- environ_get _DEFAULT_API_KEY_ENV_VAR ;
  if negb (truthy_opt default_key) then
    perform _ <- logger_warning "The default API key is not set in the application. Please set your API key in the environment variable. E.g. export LANDINGAI_API_KEY=......" ;
    W_ret None
  else W_ret default_key.

Definition get_api_credential_or_use_default : W world (option string * string) :=
  perform _ <- _import_st ;
  perform key <- session_getitem "api_key" ;
  perform secret <- session_getitem "api_secret" ;
  if negb (truthy key) then
    perform default_key <- get_default_api_key ;
    W_ret (default_key, secret)
  else W_ret (Some key, secret).

(** The nested function of [render_api_config_form]. *)
Definition _update_credential (api_key api_secret : string)
    (endpoint_id : option string) : W world unit :=
  perform _ <- session_setitem "api_key" api_key ;
  perform _ <- session_setitem "api_secret" api_secret ;
  match endpoint_id with
  | Some id => if truthy id then session_setitem "endpoint_id" id else W_ret tt
  | None => W_ret tt
  end.

(** [st.text_input(label, key=key, value=value)]: the widget is shown, what
    the user has in it is returned, and Streamlit keeps it in the session
    state under the widget key.  (The help texts are left out.) *)
Definition st_text_input (label key value : string) (password : bool)
  : W world string :=
  fun w =>
    let text := typed w key value in
    (Done text,
     with_session_state (<[key := text]> (session_state w))
       (with_page (page w ++ [text_input label key value password]) w)).

(** The key under which Streamlit keeps the submit button with that label
    of the form with that key. *)
Definition form_submitter_key (form_key label : string) : string :=
  "FormSubmitter:" +:+ form_key +:+ "-" +:+ label.

(** [st.form_submit_button(label)] in the block of [st.form(form_key)]:
    the button is shown, whether the form is being submitted is returned,
    and Streamlit keeps that in the session state under the button's
    key. *)
Definition st_form_submit_button (form_key label : string) : W world bool :=
  fun w =>
    (Done (submitted w),
     with_form_submitters
       (<[form_submitter_key form_key label := submitted w]> (form_submitters w))
       (with_page (page w ++ [form_submit_button label]) w)).

Definition set_default (key value : string) : W world unit :=
  perform present <- session_contains key ;
  if negb present then session_setitem key value else W_ret tt.

Definition render_api_config_form (render_endpoint_id : bool)
    (default_key default_secret default_endpoint_id : string) : W world unit :=
  perform _ <- _import_st ;
  perform _ <- set_default "api_key" default_key ;
  perform _ <- set_default "api_secret" default_secret ;
  perform _ <- set_default "endpoint_id" default_endpoint_id ;
  perform _ <- show (form "api_credential_form") ;
  perform value <- session_getitem "api_key" ;
  perform api_key <- st_text_input "LandingLens API Key" "lnd_api_key" value true ;
  perform value <- session_getitem "api_secret" ;
  perform api_secret <- st_text_input "LandingLens API Secret" "lnd_api_secret" value false ;
  perform endpoint_id <-
    (if render_endpoint_id then
       perform value <- session_get "endpoint_id" ;
       perform id <- st_text_input "Cloud Deployment endpoint ID" "lnd_endpoint_id"
                   (default EmptyString value) false ;
       W_ret (Some id)
     else W_ret None) ;
  perform is_submitted <- st_form_submit_button "api_credential_form" "Save" ;
  perform _ <-
    (if is_submitted then
       perform _ <- _update_credential api_key api_secret endpoint_id ;
       show (info "API configuration is saved successfully")
     else W_ret tt) ;
  perform key_secret <- get_api_credential_or_use_default ;
  perform default_api_key <- get_default_api_key ;
  if bool_decide (fst key_secret = default_api_key)
  then show (info "The default API key (free trial) is used")
  else W_ret tt.

(** The two pieces of the [img] tag around the encoded picture. *)
Definition dquote : string := String "034"%char EmptyString.

Definition img_prefix : string :=
  "<img src=" +:+ dquote +:+ "data:image/svg+xml;base64,".

Definition img_suffix : string :=
  dquote +:+ "  height=" +:+ dquote +:+ "50" +:+ dquote +:+ " />".

Definition newline : string := String "010"%char EmptyString.

(** [for _ in range(n): body]. *)
Fixpoint for_range (n : nat) (body : W world unit) : W world unit :=
  match n with
  | O => W_ret tt
  | S n' => perform _ <- body ; for_range n' body
  end.

Definition render_svg (svg : string) (margin_bottom : Z) : W world unit :=
  perform _ <- _import_st ;
  let b64 := base64.b64encode (utf8.encode svg) in
  let html := img_prefix +:+ b64 +:+ img_suffix in
  perform _ <- show (write html true) ;
  for_range (Z.to_nat margin_bottom) (show (write newline false)).

End st_utils.

(** What [if key not in st.session_state: st.session_state[key] = value]
    leaves in the session. *)
Definition fill (key value : string) (s : gmap string string) : gmap string string :=
  match s !! key with
  | Some _ => s
  | None => <[key := value]> s
  end.

(** The warning of [get_default_api_key]. *)
Definition default_key_warning : string :=
  "The default API key is not set in the application. Please set your API key in the environment variable. E.g. export LANDINGAI_API_KEY=......".

(** A value of a [bytes] object. *)
Definition byte (b : Z) : Prop := 0 <= b < 256.

(** The characters of the base64 alphabet and the padding. *)
Definition b64_char (c : ascii) : Prop :=
  is_Some (base64.value c) \/ c = "="%char.

Fixpoint string_forall (P : ascii -> Prop) (s : string) : Prop :=
  match s with
  | EmptyString => True
  | String c r => P c /\ string_forall P r
  end.

(** ** Objects and worlds of the examples *)

(** What [SegmentationPrediction(...)] builds for a mask, and the object
    with the other two cached properties around it. *)
Definition segmentation_of (label_index : Z) (encoded_mask : string)
    (encoding_map : gmap string Z) (mask_shape : Z * Z) : SegmentationPrediction.t :=
  {| SegmentationPrediction.base :=
       {| classification_base := {| score := 9 # 10 |};
          label_name := "car"; label_index := label_index |};
     SegmentationPrediction.id := "uuid";
     SegmentationPrediction.encoded_mask := encoded_mask;
     SegmentationPrediction.encoding_map := encoding_map;
     SegmentationPrediction.mask_shape := mask_shape;
     SegmentationPrediction.dict_decoded_boolean_mask := None;
     SegmentationPrediction.dict_num_predicted_pixels := None;
     SegmentationPrediction.dict_percentage_predicted_pixels := None |}.

Definition masks_of (label_index : Z) (encoded_mask : string)
    (encoding_map : gmap string Z) (mask_shape : Z * Z) : SegmentationMasks.t :=
  SegmentationMasks.new (segmentation_of label_index encoded_mask encoding_map mask_shape).

(** A generator of random numbers. *)
Definition generator : np_random.RandomState :=
  {| np_random.stream := fun k => 1000 * Z.of_nat k + 300; np_random.position := 0 |}.

Definition masks_world (self : SegmentationMasks.t) : SegmentationMasks.world :=
  {| SegmentationMasks.self := self; SegmentationMasks.random_state := generator |}.

(** An app at the start of a script run, with Streamlit installed. *)
Definition script_run (session_state environ : gmap string string)
    (typed : string -> string -> string) (submitted : bool) : st_utils.world :=
  {| st_utils.streamlit := true; st_utils.session_state := session_state;
     st_utils.form_submitters := ∅;
     st_utils.environ := environ; st_utils.typed := typed;
     st_utils.submitted := submitted; st_utils.page := []; st_utils.log := [] |}.

(** A user who leaves every text input as it is shown, and one who types an
    API key. *)
Definition untouched (key value : string) : string := value.

Definition types_api_key (api_key : string) (key value : string) : string :=
  if String.eqb key "lnd_api_key" then api_key else value.
(** * Properties *)

(** ** The built-ins on concrete inputs *)

Example int_accepts :
  map Py.int ["5"; " 5 "; "+5"; "-3"; "1_0"; "0005"; "-0"]
  = [Some 5; Some 5; Some 5; Some (-3); Some 10; Some 5; Some 0].
Proof. reflexivity. Qed.

Example int_rejects :
  map Py.int [""; "x"; "_1"; "1_"; "1__0"; "- 5"; "5 5"; "+"; "5_ "]
  = [None; None; None; None; None; None; None; None; None].
Proof. reflexivity. Qed.

Example list_mul_examples :
  Py.list_mul 0 3 = Return [0; 0; 0] /\
  Py.list_mul 0 (-3) = Return [] /\
  Py.list_mul 0 (-9223372036854775808) = Return [] /\
  Py.list_mul 0 (-9223372036854775809) = Raise OverflowError.
Proof. repeat split. Qed.

Example re_split_examples :
  Py.re_split "" = [""] /\
  Py.re_split "5Z3N2Z" = ["5"; "Z"; "3"; "N"; "2"; "Z"; ""] /\
  Py.re_split "5Z3" = ["5"; "Z"; "3"] /\
  Py.re_split "NxZ" = [""; "N"; "x"; "Z"; ""] /\
  Py.re_split "abc" = ["abc"].
Proof. repeat split. Qed.

Example zip_pairs_examples :
  Py.zip_pairs ["5"; "Z"; "3"; "N"; "2"; "Z"; ""]
  = [("5", "Z"); ("3", "N"); ("2", "Z")] /\
  Py.zip_pairs ["5"; "Z"; "3"] = [("5", "Z")] /\
  Py.zip_pairs ["abc"] = [].
Proof. repeat split. Qed.

(** A trailing token without a delimiter is dropped, whatever it holds. *)
Example decode_trailing_token :
  decode_bitmap_rle "2N3" ZN = Return [1; 1] /\
  decode_bitmap_rle "2Nxyz" ZN = Return [1; 1].
Proof. repeat split. Qed.

(** ** The split *)


Lemma re_split_text s : no_delimiter s = true -> Py.re_split s = [s].
Proof.
  induction s as [|c r IH]; simpl; [reflexivity|].
  intros [Hc Hr]%andb_prop. apply negb_true_iff in Hc.
  rewrite Hc, (IH Hr). reflexivity.
Qed.

Lemma re_split_token num d rest :
  no_delimiter num = true -> Py.is_delimiter d = true ->
  Py.re_split (num +:+ String d rest)
  = num :: String d EmptyString :: Py.re_split rest.
Proof.
  intros Hnum Hd. induction num as [|c r IH]; simpl.
  - rewrite Hd. reflexivity.
  - simpl in Hnum. apply andb_prop in Hnum as [Hc Hr].
    apply negb_true_iff in Hc. rewrite Hc, (IH Hr). reflexivity.
Qed.

(** ** The loop *)

Lemma decode_loop_acc m acc items :
  decode_loop m acc items
  = result_bind (decode_loop m [] items) (fun l => Return (acc ++ l)%list).
Proof.
  revert acc. induction items as [|[num d] rest IH]; intros acc; simpl.
  - rewrite app_nil_r. reflexivity.
  - destruct (m !! d) as [v|]; [|reflexivity].
    destruct (Py.int num) as [n|]; [|reflexivity].
    destruct (Py.list_mul v n) as [repeated|e]; [|reflexivity].
    rewrite IH, (IH repeated).
    destruct (decode_loop m [] rest); simpl; [|reflexivity].
    rewrite app_assoc. reflexivity.
Qed.

Lemma decode_cons m num d rest :
  no_delimiter num = true -> Py.is_delimiter d = true ->
  decode_bitmap_rle (num +:+ String d rest) m
  = match m !! String d EmptyString with
    | None => Raise (KeyError (String d EmptyString))
    | Some v =>
        match Py.int num with
        | None => Raise ValueError
        | Some n =>
            result_bind (Py.list_mul v n) (fun repeated =>
              result_bind (decode_bitmap_rle rest m)
                (fun l => Return (repeated ++ l)%list))
        end
    end.
Proof.
  intros Hnum Hd. unfold decode_bitmap_rle.
  rewrite (re_split_token _ _ _ Hnum Hd). simpl.
  destruct (m !! String d EmptyString) as [v|]; [|reflexivity].
  destruct (Py.int num) as [n|]; [|reflexivity].
  destruct (Py.list_mul v n) as [repeated|e]; [|reflexivity].
  apply decode_loop_acc.
Qed.

(** ** Decimal numerals *)

Lemma scan_digits_uint u acc :
  Py.scan_digits acc false (NilEmpty.string_of_uint u)
  = Some (uint_value acc u, EmptyString).
Proof.
  revert acc. induction u; intros acc; simpl; try apply IHu. reflexivity.
Qed.

Lemma int_uint u :
  u <> Decimal.Nil ->
  Py.int (NilEmpty.string_of_uint u) = Some (uint_value 0 u).
Proof.
  intros Hu. destruct u; [congruence| ..]; unfold Py.int; simpl;
    rewrite scan_digits_uint; simpl; f_equal;
    match goal with |- context [uint_value _ ?v] =>
      destruct (uint_value _ v); reflexivity end.
Qed.

Lemma of_uint_acc_value u acc :
  Z.pos (Pos.of_uint_acc u acc) = uint_value (Z.pos acc) u.
Proof.
  revert acc. induction u; intros acc; simpl; [reflexivity| ..];
    rewrite IHu; f_equal; lia.
Qed.

Lemma of_uint_value u : Z.of_N (N.of_uint u) = uint_value 0 u.
Proof.
  unfold N.of_uint.
  induction u; simpl; try (apply of_uint_acc_value); [reflexivity | exact IHu].
Qed.

Lemma to_uint_not_nil n : N.to_uint n <> Decimal.Nil.
Proof.
  destruct n; simpl; [discriminate | apply DecimalPos.Unsigned.to_uint_nonnil].
Qed.

Lemma int_decimal n : Py.int (decimal n) = Some (Z.of_N n).
Proof.
  unfold decimal. rewrite (int_uint _ (to_uint_not_nil n)).
  rewrite <- of_uint_value, DecimalN.Unsigned.of_to. reflexivity.
Qed.

Lemma no_delimiter_uint u : no_delimiter (NilEmpty.string_of_uint u) = true.
Proof. induction u; simpl; auto. Qed.

Lemma no_delimiter_decimal n : no_delimiter (decimal n) = true.
Proof. apply no_delimiter_uint. Qed.

(** ** Well-formed bitmaps *)

Lemma append_cons x (a b : string) : String x a +:+ b = String x (a +:+ b).
Proof. reflexivity. Qed.

Lemma append_assoc (a b c : string) : (a +:+ b) +:+ c = a +:+ (b +:+ c).
Proof.
  induction a as [|x a IH]; [reflexivity|].
  rewrite !append_cons. now f_equal.
Qed.

Lemma append_token num d rest :
  (num +:+ String d EmptyString) +:+ rest = num +:+ String d rest.
Proof. apply append_assoc. Qed.

Lemma list_mul_fits {A} (x : A) (n : Z) :
  Py.ssize_t_min <= n -> Py.list_mul x n = Return (repeat x (Z.to_nat n)).
Proof.
  intros H. unfold Py.list_mul.
  now replace (n <? Py.ssize_t_min) with false by (symmetry; apply Z.ltb_ge; lia).
Qed.

Lemma list_mul_of_N (v : Z) (n : N) :
  Py.list_mul v (Z.of_N n) = Return (repeat v (N.to_nat n)).
Proof.
  rewrite list_mul_fits by (unfold Py.ssize_t_min; lia).
  do 2 f_equal. lia.
Qed.

Lemma decode_token m r rest :
  run_in m r ->
  decode_bitmap_rle (token r +:+ rest) m
  = result_bind (decode_bitmap_rle rest m)
      (fun l => Return (repeat (value r) (N.to_nat (count r)) ++ l)%list).
Proof.
  intros [Hd Hm]. unfold token. rewrite append_token.
  rewrite (decode_cons _ _ _ _ (no_delimiter_decimal _) Hd).
  rewrite Hm, int_decimal, list_mul_of_N. reflexivity.
Qed.

(** A well-formed prefix contributes its expansion, whatever follows. *)
Lemma decode_prefix m rs rest :
  Forall (run_in m) rs ->
  decode_bitmap_rle (bitmap_of rs +:+ rest) m
  = result_bind (decode_bitmap_rle rest m)
      (fun l => Return (expand rs ++ l)%list).
Proof.
  induction 1 as [|r rs Hr _ IH]; cbn [bitmap_of].
  - change (EmptyString +:+ rest) with rest.
    destruct (decode_bitmap_rle rest m); reflexivity.
  - rewrite append_assoc, (decode_token _ _ _ Hr), IH.
    destruct (decode_bitmap_rle rest m); simpl; [|reflexivity].
    now rewrite app_assoc.
Qed.

Lemma append_empty (a : string) : a +:+ EmptyString = a.
Proof.
  induction a as [|x a IH]; [reflexivity|]. rewrite append_cons. now f_equal.
Qed.

Lemma decode_bitmap_of m rs :
  Forall (run_in m) rs ->
  decode_bitmap_rle (bitmap_of rs) m = Return (expand rs).
Proof.
  intros Hrs. rewrite <- (append_empty (bitmap_of rs)).
  rewrite (decode_prefix _ _ _ Hrs). simpl. now rewrite app_nil_r.
Qed.


(** ** The run-length encoder *)

Lemma expand_rle char_of bits :
  expand (map (run_of char_of) (rle bits)) = map Z.b2z bits.
Proof.
  induction bits as [|b rest IH]; simpl; [reflexivity|].
  destruct (rle rest) as [|[n b'] rs]; simpl in *.
  - now rewrite <- IH.
  - destruct (Bool.eqb b b') eqn:E; simpl.
    + apply Bool.eqb_prop in E. subst b'. rewrite <- IH.
      unfold expand. simpl. now rewrite N2Nat.inj_succ.
    + now rewrite <- IH.
Qed.

Lemma rle_runs_in m char_of bits :
  (forall b, Py.is_delimiter (char_of b) = true) ->
  (forall b, m !! String (char_of b) EmptyString = Some (Z.b2z b)) ->
  Forall (run_in m) (map (run_of char_of) (rle bits)).
Proof.
  intros Hd Hm. induction (rle bits) as [|[n b] l IH]; simpl; constructor.
  - split; [apply Hd | apply Hm].
  - exact IH.
Qed.

(** ** The claims about the decoder *)

(** C8: for every encoding map, the empty bitmap decodes to the empty
    sequence, and no exception is raised. *)
Theorem decode_empty (encoding_map : gmap string Z) :
  decode_bitmap_rle "" encoding_map = Return [].
Proof.
  unfold decode_bitmap_rle.
  change (Py.re_split "") with [""].
  change (Py.zip_pairs [""]) with (@nil (string * string)).
  reflexivity.
Qed.




(** C4, as amended: for every boolean mask and every encoding map that
    gives the bits 0 and 1 the delimiters "Z" and "N" (in either order),
    run-length encoding the flattened mask and decoding it with the same map
    gives back the flattened mask. *)
Theorem rle_round_trip (M : list (list bool)) (char_of : bool -> ascii)
    (encoding_map : gmap string Z) :
  (forall b, Py.is_delimiter (char_of b) = true) ->
  (forall b, encoding_map !! String (char_of b) EmptyString = Some (Z.b2z b)) ->
  decode_bitmap_rle (rle_encode char_of (flatten M)) encoding_map
  = Return (map Z.b2z (flatten M)).
Proof.
  intros Hd Hm. unfold rle_encode.
  rewrite (decode_bitmap_of _ _ (rle_runs_in _ _ _ Hd Hm)).
  now rewrite expand_rle.
Qed.

Lemma rle_round_trip_2x3 :
  rle_encode ZN_char (flatten [[true; true; false]; [false; false; true]])
  = "2N3Z1N" /\
  decode_bitmap_rle "2N3Z1N" ZN = Return [1; 1; 0; 0; 0; 1].
Proof.
  split; [reflexivity|].
  apply (rle_round_trip [[true; true; false]; [false; false; true]] ZN_char ZN);
    intros []; reflexivity.
Defined.

(** C4, the claim as stated fails: with the distinct single characters "0"
    and "1" for the bits the encoded mask [[true]] is "11", and with "A" and
    "B" it is "1B"; neither decodes to [1]. *)
Lemma rle_round_trip_needs_ZN :
  rle_encode digits01_char (flatten [[true]]) = "11" /\
  decode_bitmap_rle "11" digits01 = Return [] /\
  rle_encode AB_char (flatten [[true]]) = "1B" /\
  decode_bitmap_rle "1B" AB = Return [] /\
  map Z.b2z (flatten [[true]]) = [1].
Proof. repeat split. Qed.

(** C1, the code at the failing input: the split is on "Z" and "N" whatever
    the keys of the encoding map are, so a bitmap without these two
    characters is one unpaired token and decodes to the empty sequence. *)
Theorem decode_splits_on_ZN_only (bitmap : string) (encoding_map : gmap string Z) :
  no_delimiter bitmap = true ->
  Py.re_split bitmap = [bitmap] /\
  decode_bitmap_rle bitmap encoding_map = Return [].
Proof.
  intros H. unfold decode_bitmap_rle. rewrite (re_split_text _ H).
  split; reflexivity.
Qed.

Lemma decode_splits_on_ZN_only_5A3B :
  Py.re_split "5A3B" = ["5A3B"] /\ decode_bitmap_rle "5A3B" AB = Return [].
Proof. apply (decode_splits_on_ZN_only "5A3B" AB). reflexivity. Defined.





(** ** Object detection *)

Module ObjectDetectionFacts.
Import ObjectDetectionPrediction.

Lemma od_body_value self :
  num_predicted_pixels_body self
  = (Return ((getitem4 (bboxes self) 2 - getitem4 (bboxes self) 0)
             * (getitem4 (bboxes self) 3 - getitem4 (bboxes self) 1)), self).
Proof. reflexivity. Qed.

Lemma od_read_bboxes self : bboxes (snd (num_predicted_pixels self)) = bboxes self.
Proof.
  unfold num_predicted_pixels, num_predicted_pixels_instance, cached_property.
  destruct (dict_num_predicted_pixels self); reflexivity.
Qed.

Lemma od_read_coherent self : coherent self -> coherent (snd (num_predicted_pixels self)).
Proof.
  intros H. unfold num_predicted_pixels, num_predicted_pixels_instance,
    cached_property.
  destruct (dict_num_predicted_pixels self) eqn:E; [exact H|].
  rewrite od_body_value. simpl. intros val [= <-]. reflexivity.
Qed.

Lemma od_reachable_coherent self : reachable self -> coherent self.
Proof.
  induction 1 as [? ? ? ? ? self Hnew | self _ IH].
  - injection Hnew as <-. intros val [=].
  - now apply od_read_coherent.
Qed.

Lemma od_read_value self :
  coherent self ->
  fst (num_predicted_pixels self) = fst (num_predicted_pixels_body self).
Proof.
  intros H. unfold num_predicted_pixels, num_predicted_pixels_instance,
    cached_property.
  destruct (dict_num_predicted_pixels self) eqn:E; [|reflexivity].
  symmetry. now apply H.
Qed.

(** The value is stored by the first read. *)
Lemma od_read_stores self :
  coherent self ->
  Return <$> dict_num_predicted_pixels (snd (num_predicted_pixels self))
  = Some (fst (num_predicted_pixels self)).
Proof.
  intros H. unfold num_predicted_pixels, num_predicted_pixels_instance,
    cached_property.
  destruct (dict_num_predicted_pixels self) eqn:E; simpl; [now rewrite E|].
  reflexivity.
Qed.

End ObjectDetectionFacts.

(** ** Segmentation *)

Module SegmentationFacts.
Import SegmentationPrediction.

Lemma seg_mask_body self :
  decoded_boolean_mask_body self = (mask_of_fields self, self).
Proof.
  unfold decoded_boolean_mask_body, mask_of_fields, bind, field, lift, ret.
  destruct (decode_bitmap_rle (encoded_mask self) (encoding_map self)) as [flat|e];
    simpl; [|reflexivity].
  destruct (np.reshape (np.array_uint8 flat) (mask_shape self)); reflexivity.
Qed.

Lemma seg_kept_refl self : coherent self -> kept self self.
Proof. intros H. unfold kept. auto. Qed.

Lemma seg_mask_read self :
  coherent self ->
  fst (decoded_boolean_mask self) = mask_of_fields self /\
  kept self (snd (decoded_boolean_mask self)).
Proof.
  intros H. pose proof H as (Hm & Hn & Hq).
  unfold decoded_boolean_mask, cached_property.
  destruct (dict_decoded_boolean_mask self) as [a|] eqn:E; simpl.
  - split; [symmetry; now apply Hm | now apply seg_kept_refl].
  - rewrite seg_mask_body.
    case_eq (mask_of_fields self); [intros a Ea | intros e Ea]; simpl;
      (split; [reflexivity|]); [|now apply seg_kept_refl].
    split; [reflexivity|]. split; [reflexivity|].
    split; [|split].
    + intros a' [= <-]. exact Ea.
    + exact Hn.
    + exact Hq.
Qed.

Lemma seg_num_read self :
  coherent self ->
  fst (num_predicted_pixels self)
  = result_bind (mask_of_fields self) (fun a => Return (np.count_nonzero a)) /\
  kept self (snd (num_predicted_pixels self)).
Proof.
  intros H. pose proof H as (Hm & Hn & Hq).
  unfold num_predicted_pixels, num_predicted_pixels_instance, cached_property.
  destruct (dict_num_predicted_pixels self) as [n|] eqn:E; simpl.
  - destruct (Hn n eq_refl) as (a & -> & ->).
    split; [reflexivity | now apply seg_kept_refl].
  - unfold num_predicted_pixels_body, bind, ret.
    destruct (seg_mask_read self H) as (Hv & Hk).
    destruct (decoded_boolean_mask self) as [r self']. simpl in Hv, Hk.
    pose proof Hk as (Hf & Hs & Hm' & Hn' & Hq').
    rewrite <- Hv. destruct r as [a|e]; simpl; (split; [reflexivity|]);
      [|exact Hk].
    split; [exact Hf|]. split; [exact Hs|]. split; [|split].
    + exact Hm'.
    + intros n [= <-]. exists a. split; [|reflexivity].
      change (mask_of_fields self' = Return a). now rewrite Hf.
    + exact Hq'.
Qed.

Lemma seg_percentage_read self :
  coherent self ->
  fst (percentage_predicted_pixels self)
  = result_bind (mask_of_fields self)
      (fun a => truediv (np.count_nonzero a) (math.prod (mask_shape self))) /\
  kept self (snd (percentage_predicted_pixels self)).
Proof.
  intros H. pose proof H as (Hm & Hn & Hq).
  unfold percentage_predicted_pixels, cached_property.
  destruct (dict_percentage_predicted_pixels self) as [q|] eqn:E; simpl.
  - destruct (Hq q eq_refl) as (a & Ha & Hd). rewrite Ha. simpl. rewrite Hd.
    split; [reflexivity | now apply seg_kept_refl].
  - unfold percentage_predicted_pixels_body, bind, field, lift.
    destruct (seg_mask_read self H) as (Hv & Hk).
    destruct (decoded_boolean_mask self) as [r self']. simpl in Hv, Hk.
    pose proof Hk as (Hf & Hs & Hm' & Hn' & Hq').
    rewrite <- Hv. destruct r as [a|e]; simpl;
      [|split; [reflexivity | exact Hk]].
    rewrite Hs.
    destruct (truediv (np.count_nonzero a) (math.prod (mask_shape self)))
      as [q|e] eqn:Eq; simpl; (split; [reflexivity|]); [|exact Hk].
    split; [exact Hf|]. split; [exact Hs|]. split; [|split].
    + exact Hm'.
    + exact Hn'.
    + intros q' [= <-]. exists a. split.
      * change (mask_of_fields self' = Return a). now rewrite Hf.
      * change (truediv (np.count_nonzero a) (math.prod (mask_shape self'))
                = Return q). now rewrite Hs.
Qed.

Lemma seg_reachable_coherent self : reachable self -> coherent self.
Proof.
  induction 1 as [? ? ? ? ? ? ? self Hnew | self _ IH | self _ IH | self _ IH].
  - injection Hnew as <-. repeat split; intros ? [=].
  - apply (seg_mask_read self IH).
  - apply (seg_num_read self IH).
  - apply (seg_percentage_read self IH).
Qed.

End SegmentationFacts.

(** ** The mask of a well-shaped prediction *)

Lemma seg_mask_of_fields (self : SegmentationPrediction.t) flat h w :
  decode_bitmap_rle (SegmentationPrediction.encoded_mask self)
    (SegmentationPrediction.encoding_map self) = Return flat ->
  SegmentationPrediction.mask_shape self = (h, w) ->
  0 <= h -> 0 <= w ->
  SegmentationPrediction.mask_of_fields self
  = if Z.of_nat (length flat) =? h * w
    then Return {| np.shape := (h, w); np.data := np.array_uint8 flat |}
    else Raise ValueError.
Proof.
  intros Hd Hs Hh Hw. unfold SegmentationPrediction.mask_of_fields.
  rewrite Hd, Hs. simpl. unfold np.reshape, np.array_uint8.
  rewrite length_map.
  destruct (h <? 0) eqn:Eh; [lia|]. destruct (w <? 0) eqn:Ew; [lia|]. simpl.
  rewrite (Z.eqb_sym (h * w)). reflexivity.
Qed.

Lemma array_uint8_bits flat : Forall is_bit flat -> np.array_uint8 flat = flat.
Proof.
  induction 1 as [|v l [-> | ->] _ IH]; simpl; [reflexivity | ..];
    now rewrite IH.
Qed.

Lemma count_nonzero_bits flat sh :
  Forall is_bit flat ->
  np.count_nonzero {| np.shape := sh; np.data := flat |} = count_ones flat.
Proof.
  unfold np.count_nonzero, count_ones. simpl.
  induction 1 as [|v l [-> | ->] _ IH]; simpl; [reflexivity | ..]; lia.
Qed.

Lemma count_ones_bounds flat : 0 <= count_ones flat <= Z.of_nat (length flat).
Proof.
  unfold count_ones. induction flat as [|v l IH]; simpl; [lia|].
  destruct (v =? 1); simpl; lia.
Qed.

Lemma truediv_unit_interval c n :
  0 <= c <= n -> 0 < n ->
  truediv c n = Return (inject_Z c / inject_Z n)%Q /\
  (0 <= inject_Z c / inject_Z n <= 1)%Q.
Proof.
  intros Hc Hn. unfold truediv. destruct (n =? 0) eqn:E; [lia|].
  split; [reflexivity|].
  destruct n as [|p|p]; try lia.
  unfold Qdiv, Qmult, Qinv, Qle, inject_Z. simpl. lia.
Qed.

(** ** The claims about the prediction classes *)

Ltac all_bits :=
  repeat (constructor; [unfold is_bit; lia|]); constructor.

(** C9: reading [num_predicted_pixels] of an [OcrPrediction], and of any
    kind that does not define it ([Prediction], [ClassificationPrediction]),
    raises [NotImplementedError]; no value is returned and the object is
    unchanged. *)
Theorem num_predicted_pixels_not_implemented :
  (forall p : OcrPrediction,
     num_predicted_pixels p = (Raise NotImplementedError, p)) /\
  (forall p : ClassificationPrediction,
     num_predicted_pixels p = (Raise NotImplementedError, p)) /\
  (forall p : Prediction,
     num_predicted_pixels p = (Raise NotImplementedError, p)).
Proof. repeat split. Qed.

(** C7: for every [ObjectDetectionPrediction] with bounding box
    (xmin, ymin, xmax, ymax), [num_predicted_pixels] is
    (xmax - xmin) * (ymax - ymin), on the first read and on every later
    one. *)
Theorem od_num_predicted_pixels (self : ObjectDetectionPrediction.t)
    (xmin ymin xmax ymax : Z) :
  ObjectDetectionPrediction.reachable self ->
  ObjectDetectionPrediction.bboxes self = (xmin, ymin, xmax, ymax) ->
  fst (num_predicted_pixels self) = Return ((xmax - xmin) * (ymax - ymin)).
Proof.
  intros Hr Hb.
  rewrite (ObjectDetectionFacts.od_read_value _
             (ObjectDetectionFacts.od_reachable_coherent _ Hr)).
  rewrite ObjectDetectionFacts.od_body_value, Hb. reflexivity.
Qed.

Lemma od_num_predicted_pixels_600 :
  read (ObjectDetectionPrediction.new (9 # 10) "car" 1 "uuid" (10, 10, 30, 40))
    num_predicted_pixels
  = Return 600.
Proof.
  exact (od_num_predicted_pixels _ 10 10 30 40
           (ObjectDetectionPrediction.reachable_new
              (9 # 10) "car" 1 "uuid" (10, 10, 30, 40) _ eq_refl)
           eq_refl).
Defined.

(** C10: the constructor of [ObjectDetectionPrediction] accepts every
    integer 4-tuple as the bounding box, inverted or not, and
    [num_predicted_pixels] is then (xmax - xmin) * (ymax - ymin), which is
    negative as soon as exactly one side is inverted. *)
Theorem od_new_accepts_any_box (score : Q) (label_name : string)
    (label_index : Z) (id : string) (xmin ymin xmax ymax : Z) :
  exists self,
    ObjectDetectionPrediction.new score label_name label_index id
      (xmin, ymin, xmax, ymax) = Return self /\
    ObjectDetectionPrediction.bboxes self = (xmin, ymin, xmax, ymax) /\
    fst (num_predicted_pixels self) = Return ((xmax - xmin) * (ymax - ymin)) /\
    (xmax < xmin /\ ymin < ymax \/ xmin < xmax /\ ymax < ymin ->
     (xmax - xmin) * (ymax - ymin) < 0).
Proof.
  eexists. split; [reflexivity|]. split; [reflexivity|].
  split; [reflexivity | nia].
Qed.

Lemma od_new_accepts_inverted_box :
  read (ObjectDetectionPrediction.new (9 # 10) "car" 1 "uuid" (30, 10, 10, 40))
    num_predicted_pixels
  = Return (-600) /\ -600 < 0.
Proof.
  destruct (od_new_accepts_any_box (9 # 10) "car" 1 "uuid" 30 10 10 40)
    as (self & Hnew & _ & Hnum & Hneg).
  split.
  - unfold read. rewrite Hnew. exact Hnum.
  - apply Hneg. left. split; reflexivity.
Defined.

(** C3, as amended: for every [SegmentationPrediction] with a height and a
    width that are not negative whose [encoded_mask] decodes to a bit
    sequence: when the length of the sequence is not height * width, reading
    [decoded_boolean_mask] raises [ValueError], the first time and every
    time; when it is, the result has shape (height, width) and holds the
    sequence in row-major order, entry (i, j) being entry i * width + j of
    the sequence. *)
Theorem decoded_boolean_mask_reshape (self : SegmentationPrediction.t)
    (flat : list Z) (h w : Z) :
  SegmentationPrediction.reachable self ->
  decode_bitmap_rle (SegmentationPrediction.encoded_mask self)
    (SegmentationPrediction.encoding_map self) = Return flat ->
  SegmentationPrediction.mask_shape self = (h, w) ->
  0 <= h -> 0 <= w -> Forall is_bit flat ->
  (Z.of_nat (length flat) <> h * w ->
   fst (SegmentationPrediction.decoded_boolean_mask self) = Raise ValueError) /\
  (Z.of_nat (length flat) = h * w ->
   exists a,
     fst (SegmentationPrediction.decoded_boolean_mask self) = Return a /\
     np.shape a = (h, w) /\ np.data a = flat /\
     forall i j, 0 <= i < h -> 0 <= j < w ->
       is_Some (np.item a i j) /\
       np.item a i j = flat !! Z.to_nat (i * w + j)).
Proof.
  intros Hr Hd Hs Hh Hw Hbits.
  apply SegmentationFacts.seg_reachable_coherent in Hr.
  destruct (SegmentationFacts.seg_mask_read self Hr) as [-> _].
  rewrite (seg_mask_of_fields self flat h w Hd Hs Hh Hw).
  rewrite (array_uint8_bits flat Hbits).
  split; intros Hlen.
  - apply Z.eqb_neq in Hlen. now rewrite Hlen.
  - rewrite Hlen, Z.eqb_refl. eexists. split; [reflexivity|].
    split; [reflexivity|]. split; [reflexivity|].
    intros i j Hi Hj. unfold np.item. simpl.
    replace ((0 <=? i) && (i <? h) && (0 <=? j) && (j <? w)) with true
      by (symmetry; rewrite !andb_true_iff; lia).
    split; [|reflexivity].
    apply lookup_lt_is_Some. nia.
Qed.

Lemma decoded_boolean_mask_reshape_2x2 :
  read (SegmentationPrediction.new (9 # 10) "car" 1 "uuid" "3Z" ZN (2, 2))
    SegmentationPrediction.decoded_boolean_mask
  = Raise ValueError /\
  exists a,
    read (SegmentationPrediction.new (9 # 10) "car" 1 "uuid" "1N2Z1N" ZN (2, 2))
      SegmentationPrediction.decoded_boolean_mask
    = Return a /\
    np.shape a = (2, 2) /\ np.data a = [1; 0; 0; 1] /\
    np.item a 1 1 = Some 1.
Proof.
  split.
  - exact (proj1 (decoded_boolean_mask_reshape _ [0; 0; 0] 2 2
             (SegmentationPrediction.reachable_new
                (9 # 10) "car" 1 "uuid" "3Z" ZN (2, 2) _ eq_refl)
             eq_refl eq_refl ltac:(lia) ltac:(lia)
             ltac:(all_bits)) ltac:(simpl; lia)).
  - destruct (proj2 (decoded_boolean_mask_reshape _ [1; 0; 0; 1] 2 2
             (SegmentationPrediction.reachable_new
                (9 # 10) "car" 1 "uuid" "1N2Z1N" ZN (2, 2) _ eq_refl)
             eq_refl eq_refl ltac:(lia) ltac:(lia)
             ltac:(all_bits)) eq_refl)
      as (a & Ha & Hshape & Hdata & Hitem).
    exists a. split; [exact Ha|]. split; [exact Hshape|]. split; [exact Hdata|].
    rewrite (proj2 (Hitem 1 1 ltac:(lia) ltac:(lia))). reflexivity.
Defined.

(** C3, the claim as stated fails: three decoded bits for the shape (2, 2)
    make the read raise [ValueError], which is not [ShapeMismatchError]. *)
Lemma decoded_boolean_mask_not_ShapeMismatchError :
  decode_bitmap_rle "3Z" ZN = Return [0; 0; 0] /\
  read (SegmentationPrediction.new (9 # 10) "car" 1 "uuid" "3Z" ZN (2, 2))
    SegmentationPrediction.decoded_boolean_mask
  = Raise ValueError /\
  Raise (A := np.ndarray) ValueError <> Raise ShapeMismatchError.
Proof. repeat split. discriminate. Qed.

(** C6, as amended: for every [SegmentationPrediction] with a positive
    height and width whose [encoded_mask] decodes to height * width bits,
    [num_predicted_pixels] is the number of 1-bits, and
    [percentage_predicted_pixels] is that number divided by height * width,
    a value between 0 and 1. *)
Theorem seg_pixel_statistics (self : SegmentationPrediction.t)
    (flat : list Z) (h w : Z) :
  SegmentationPrediction.reachable self ->
  decode_bitmap_rle (SegmentationPrediction.encoded_mask self)
    (SegmentationPrediction.encoding_map self) = Return flat ->
  SegmentationPrediction.mask_shape self = (h, w) ->
  0 < h -> 0 < w -> Forall is_bit flat ->
  Z.of_nat (length flat) = h * w ->
  fst (num_predicted_pixels self) = Return (count_ones flat) /\
  fst (SegmentationPrediction.percentage_predicted_pixels self)
  = Return (inject_Z (count_ones flat) / inject_Z (h * w))%Q /\
  (0 <= inject_Z (count_ones flat) / inject_Z (h * w) <= 1)%Q.
Proof.
  intros Hr Hd Hs Hh Hw Hbits Hlen.
  apply SegmentationFacts.seg_reachable_coherent in Hr.
  destruct (SegmentationFacts.seg_num_read self Hr) as [-> _].
  destruct (SegmentationFacts.seg_percentage_read self Hr) as [-> _].
  rewrite (seg_mask_of_fields self flat h w Hd Hs) by lia.
  rewrite Hlen, Z.eqb_refl, Hs. simpl.
  rewrite (array_uint8_bits flat Hbits), (count_nonzero_bits flat _ Hbits).
  split; [reflexivity|].
  apply truediv_unit_interval; [|nia].
  pose proof (count_ones_bounds flat). lia.
Qed.

Lemma seg_pixel_statistics_2x2 :
  decode_bitmap_rle "1N2Z1N" ZN = Return [1; 0; 0; 1] /\
  read (SegmentationPrediction.new (9 # 10) "car" 1 "uuid" "1N2Z1N" ZN (2, 2))
    num_predicted_pixels
  = Return 2 /\
  exists q,
    read (SegmentationPrediction.new (9 # 10) "car" 1 "uuid" "1N2Z1N" ZN (2, 2))
      SegmentationPrediction.percentage_predicted_pixels
    = Return q /\
    (q == 1 # 2)%Q.
Proof.
  split; [reflexivity|].
  destruct (seg_pixel_statistics _ [1; 0; 0; 1] 2 2
              (SegmentationPrediction.reachable_new
                 (9 # 10) "car" 1 "uuid" "1N2Z1N" ZN (2, 2) _ eq_refl)
              eq_refl eq_refl ltac:(lia) ltac:(lia) ltac:(all_bits) eq_refl)
    as (Hnum & Hpct & _).
  split; [exact Hnum|].
  eexists. split; [exact Hpct | reflexivity].
Defined.

(** C6, the claim as stated fails: the empty bitmap with the shape (0, 0)
    decodes to 0 = 0 * 0 bits, and reading [percentage_predicted_pixels]
    raises [ZeroDivisionError]. *)
Lemma seg_percentage_of_empty_mask :
  decode_bitmap_rle "" ZN = Return [] /\
  Z.of_nat (length (A := Z) []) = 0 * 0 /\
  read (SegmentationPrediction.new (9 # 10) "car" 1 "uuid" "" ZN (0, 0))
    num_predicted_pixels
  = Return 0 /\
  read (SegmentationPrediction.new (9 # 10) "car" 1 "uuid" "" ZN (0, 0))
    SegmentationPrediction.percentage_predicted_pixels
  = Raise ZeroDivisionError.
Proof. repeat split. Qed.

(** ** Further properties *)


(** X2: [decoded_boolean_mask] is cached in the [__dict__]: a read that
    returns has stored the mask, and on every object whose [__dict__] holds
    a mask the read returns that mask and leaves the object as it is,
    whatever the encoded mask, the encoding map and the shape of the object
    are, so without decoding; a read that raises stores nothing. *)
Theorem decoded_boolean_mask_memoized (self : SegmentationPrediction.t) :
  match SegmentationPrediction.decoded_boolean_mask self with
  | (Return a, self') =>
      SegmentationPrediction.dict_decoded_boolean_mask self' = Some a /\
      forall other,
        SegmentationPrediction.dict_decoded_boolean_mask other = Some a ->
        SegmentationPrediction.decoded_boolean_mask other = (Return a, other)
  | (Raise _, self') => self' = self
  end.
Proof.
  assert (Hit : forall a other,
            SegmentationPrediction.dict_decoded_boolean_mask other = Some a ->
            SegmentationPrediction.decoded_boolean_mask other = (Return a, other)).
  { intros a other E.
    unfold SegmentationPrediction.decoded_boolean_mask, cached_property.
    now rewrite E. }
  unfold SegmentationPrediction.decoded_boolean_mask at 1, cached_property.
  destruct (SegmentationPrediction.dict_decoded_boolean_mask self) as [a|] eqn:E.
  - split; [exact E | apply Hit].
  - rewrite SegmentationFacts.seg_mask_body.
    destruct (SegmentationPrediction.mask_of_fields self); [|reflexivity].
    split; [reflexivity | apply Hit].
Qed.

(** ** The decoder on any bitmap *)

Lemma append_nil_l (a : string) : EmptyString +:+ a = a.
Proof. reflexivity. Qed.

Lemma tokenize_join s :
  s = join (fst (tokenize s)) +:+ snd (tokenize s).
Proof.
  induction s as [|c r IH]; [reflexivity|]. simpl.
  destruct (tokenize r) as [ps t]. simpl in IH.
  destruct (Py.is_delimiter c).
  - cbn [fst snd join]. rewrite append_nil_l, append_cons. now rewrite <- IH.
  - destruct ps as [|[num d] ps']; cbn [fst snd join] in *.
    + rewrite append_nil_l in *. now rewrite <- IH.
    + rewrite append_assoc, append_cons in *. rewrite append_cons. now rewrite <- IH.
Qed.
Lemma tokenize_cons c r :
  tokenize (String c r)
  = let '(ps, t) := tokenize r in
    if Py.is_delimiter c then ((EmptyString, c) :: ps, t)
    else match ps with
         | (num, d) :: ps' => ((String c num, d) :: ps', t)
         | [] => ([], String c t)
         end.
Proof. reflexivity. Qed.

Lemma tokenize_complete_aux s :
  complete s = true ->
  snd (tokenize s) = EmptyString /\ (s <> EmptyString -> fst (tokenize s) <> []).
Proof.
  induction s as [|c r IH]; [split; [reflexivity | congruence]|].
  intros Hc. cbn [complete] in Hc. destruct r as [|c' r'].
  - simpl. rewrite Hc. split; [reflexivity | discriminate].
  - destruct (IH Hc) as [Ht Hps]. specialize (Hps ltac:(discriminate)).
    rewrite tokenize_cons. destruct (tokenize (String c' r')) as [ps t].
    simpl in Ht, Hps. subst t.
    destruct (Py.is_delimiter c); [split; [reflexivity | discriminate]|].
    destruct ps as [|[num d] ps']; [congruence|].
    split; [reflexivity | discriminate].
Qed.

Lemma tokenize_complete s : complete s = true -> snd (tokenize s) = EmptyString.
Proof. intros H. apply (tokenize_complete_aux s H). Qed.

Lemma tokenize_split_pairs s :
  Forall split_pair (fst (tokenize s)) /\ no_delimiter (snd (tokenize s)) = true.
Proof.
  induction s as [|c r [IHp IHt]]; [split; [constructor | reflexivity]|].
  rewrite tokenize_cons. destruct (tokenize r) as [ps t]. simpl in IHp, IHt.
  destruct (Py.is_delimiter c) eqn:Ec.
  - split; [|exact IHt]. constructor; [|exact IHp]. split; [reflexivity | exact Ec].
  - destruct ps as [|[num d] ps']; simpl.
    + split; [constructor|]. now rewrite Ec.
    + split; [|exact IHt]. inversion IHp as [|? ? [Hn Hd] Hps]; subst.
      constructor; [|exact Hps]. split; [|exact Hd]. simpl in *.
      now rewrite Ec.
Qed.

(** The pairs that the loop runs over. *)
Lemma zip_pairs_join ps rest :
  Forall split_pair ps ->
  Py.zip_pairs (Py.re_split (join ps +:+ rest))
  = (map loop_item ps ++ Py.zip_pairs (Py.re_split rest))%list.
Proof.
  induction 1 as [|[num d] ps [Hn Hd] _ IH]; [reflexivity|].
  cbn [join]. rewrite append_assoc, append_cons.
  simpl in Hn, Hd. rewrite (re_split_token _ _ _ Hn Hd).
  cbn [Py.zip_pairs map]. now rewrite IH.
Qed.

Lemma zip_pairs_text t : no_delimiter t = true -> Py.zip_pairs (Py.re_split t) = [].
Proof. intros H. now rewrite (re_split_text _ H). Qed.

Lemma zip_pairs_tokenize s :
  Py.zip_pairs (Py.re_split s) = map loop_item (fst (tokenize s)).
Proof.
  destruct (tokenize_split_pairs s) as [Hp Ht].
  rewrite (tokenize_join s) at 1.
  rewrite (zip_pairs_join _ _ Hp), (zip_pairs_text _ Ht). apply app_nil_r.
Qed.

Lemma decode_loop_app m acc l1 l2 :
  decode_loop m acc (l1 ++ l2)
  = result_bind (decode_loop m acc l1) (fun acc' => decode_loop m acc' l2).
Proof.
  revert acc. induction l1 as [|[num key] l1 IH]; intros acc; [reflexivity|].
  simpl. destruct (m !! key) as [v|]; [|reflexivity].
  destruct (Py.int num) as [n|]; [|reflexivity].
  destruct (Py.list_mul v n); [apply IH | reflexivity].
Qed.

Lemma decode_concat m b1 b2 :
  complete b1 = true ->
  decode_bitmap_rle (b1 +:+ b2) m
  = result_bind (decode_bitmap_rle b1 m) (fun l1 =>
      result_bind (decode_bitmap_rle b2 m) (fun l2 => Return (l1 ++ l2)%list)).
Proof.
  intros Hc. unfold decode_bitmap_rle.
  destruct (tokenize_split_pairs b1) as [Hp _].
  pose proof (tokenize_join b1) as Hj.
  rewrite (tokenize_complete _ Hc), append_empty in Hj.
  rewrite (zip_pairs_tokenize b1).
  rewrite Hj at 1. rewrite (zip_pairs_join _ _ Hp), decode_loop_app.
  destruct (decode_loop m [] (map loop_item (fst (tokenize b1)))) as [l1|e];
    simpl; [|reflexivity].
  apply decode_loop_acc.
Qed.

Lemma decode_trailing m b t :
  no_delimiter t = true ->
  decode_bitmap_rle (b +:+ t) m = decode_bitmap_rle b m.
Proof.
  intros Ht. unfold decode_bitmap_rle.
  destruct (tokenize_split_pairs b) as [Hp Ht0].
  rewrite (zip_pairs_tokenize b).
  rewrite (tokenize_join b) at 1. rewrite append_assoc, (zip_pairs_join _ _ Hp).
  rewrite zip_pairs_text; [now rewrite app_nil_r|].
  clear -Ht Ht0. induction (snd (tokenize b)) as [|c r IH]; [exact Ht|].
  rewrite append_cons. simpl in *. apply andb_prop in Ht0 as [-> Hr]. simpl. auto.
Qed.

(** X3: a bitmap that ends with a delimiter can be decoded apart from what
    follows it: the decoder on the concatenation returns the two decoded
    sequences one after the other, and raises what the first part raises,
    else what the second raises. *)
Theorem decode_concatenation (encoding_map : gmap string Z) (b1 b2 : string) :
  complete b1 = true ->
  decode_bitmap_rle (b1 +:+ b2) encoding_map
  = result_bind (decode_bitmap_rle b1 encoding_map) (fun l1 =>
      result_bind (decode_bitmap_rle b2 encoding_map) (fun l2 =>
        Return (l1 ++ l2)%list)).
Proof. apply decode_concat. Qed.

Lemma decode_concatenation_2Z_1N :
  decode_bitmap_rle ("2Z" +:+ "1N") ZN = Return [0; 0; 1].
Proof. exact (eq_trans (decode_concatenation ZN "2Z" "1N" eq_refl) eq_refl). Defined.

(** X4: characters after the last delimiter are dropped unread: whatever
    text without "Z" and "N" is appended to a bitmap, digits or not, the
    decoder returns or raises what it does without it. *)
Theorem decode_ignores_trailing_token (encoding_map : gmap string Z)
    (bitmap trailing : string) :
  no_delimiter trailing = true ->
  decode_bitmap_rle (bitmap +:+ trailing) encoding_map
  = decode_bitmap_rle bitmap encoding_map.
Proof. apply decode_trailing. Qed.

Lemma decode_ignores_trailing_token_2Z1Nx7 :
  decode_bitmap_rle ("2Z1N" +:+ "x7") ZN = Return [0; 0; 1].
Proof.
  exact (eq_trans (decode_ignores_trailing_token ZN "2Z1N" "x7" eq_refl) eq_refl).
Defined.

Lemma is_delimiter_ZN d : Py.is_delimiter d = true -> d = "Z"%char \/ d = "N"%char.
Proof.
  unfold Py.is_delimiter. intros [H | H]%orb_prop; apply Ascii.eqb_eq in H; auto.
Qed.

Lemma decode_loop_values m (P : Z -> Prop) items acc :
  (forall key v, In key (map snd items) -> m !! key = Some v -> P v) ->
  Forall P acc ->
  match decode_loop m acc items with
  | Return l => Forall P l
  | Raise _ => True
  end.
Proof.
  revert acc. induction items as [|[num key] items IH]; intros acc HP Hacc;
    [exact Hacc|].
  simpl. destruct (m !! key) as [v|] eqn:Ev; [|exact I].
  destruct (Py.int num) as [n|]; [|exact I].
  unfold Py.list_mul. destruct (n <? Py.ssize_t_min); [exact I|].
  apply IH.
  - intros key' v' Hin. apply HP. now right.
  - apply Forall_app. split; [exact Hacc|].
    assert (Hv : P v) by (apply (HP key v); [now left | exact Ev]).
    induction (Z.to_nat n); simpl; constructor; auto.
Qed.

(** X5: every entry of a decoded sequence is the value that the encoding
    map gives to "Z" or to "N": no other key of the map is ever looked up. *)
Theorem decode_values_from_map (bitmap : string) (encoding_map : gmap string Z) :
  match decode_bitmap_rle bitmap encoding_map with
  | Return flat_mask =>
      Forall (fun v => encoding_map !! "Z" = Some v \/
                       encoding_map !! "N" = Some v) flat_mask
  | Raise _ => True
  end.
Proof.
  unfold decode_bitmap_rle. rewrite zip_pairs_tokenize.
  apply decode_loop_values; [|constructor].
  destruct (tokenize_split_pairs bitmap) as [Hp _].
  induction Hp as [|[num d] ps [_ Hd] _ IH]; intros key v; simpl; [tauto|].
  intros [<- | Hin] Hv; [|now apply (IH key v)].
  simpl in Hd. destruct (is_delimiter_ZN d Hd) as [-> | ->]; auto.
Qed.

Lemma decode_loop_length m items acc :
  match decode_loop m acc items with
  | Return l =>
      length l = (length acc + list_sum (map (fun p => run_length (fst p)) items))%nat
  | Raise _ => True
  end.
Proof.
  revert acc. induction items as [|[num key] items IH]; intros acc; simpl; [lia|].
  destruct (m !! key) as [v|]; [|exact I].
  unfold run_length at 1. simpl. destruct (Py.int num) as [n|]; [|exact I].
  unfold Py.list_mul. destruct (n <? Py.ssize_t_min); [exact I|].
  specialize (IH (acc ++ repeat v (Z.to_nat n))%list).
  destruct (decode_loop m (acc ++ repeat v (Z.to_nat n)) items); [|exact I].
  rewrite IH, length_app, repeat_length. lia.
Qed.

(** X6: the length of a decoded sequence is the sum of the counts of the
    (count, delimiter) pairs that the split of the bitmap gives, a negative
    count counting as zero; so it is the same under every encoding map. *)
Theorem decode_length (bitmap : string) (encoding_map : gmap string Z) :
  match decode_bitmap_rle bitmap encoding_map with
  | Return flat_mask =>
      length flat_mask
      = list_sum (map (fun p => run_length (fst p))
                    (Py.zip_pairs (Py.re_split bitmap)))
  | Raise _ => True
  end.
Proof.
  unfold decode_bitmap_rle.
  pose proof (decode_loop_length encoding_map
                (Py.zip_pairs (Py.re_split bitmap)) []) as H.
  destruct (decode_loop encoding_map [] (Py.zip_pairs (Py.re_split bitmap)));
    [|exact I].
  exact H.
Qed.

Lemma decode_loop_fmap (f : Z -> Z) m items acc :
  decode_loop (f <$> m) (map f acc) items
  = result_bind (decode_loop m acc items) (fun l => Return (map f l)).
Proof.
  revert acc. induction items as [|[num key] items IH]; intros acc; [reflexivity|].
  simpl. rewrite lookup_fmap. destruct (m !! key) as [v|]; [|reflexivity].
  simpl. destruct (Py.int num) as [n|]; [|reflexivity].
  unfold Py.list_mul. destruct (n <? Py.ssize_t_min); [reflexivity|].
  rewrite <- IH. f_equal. rewrite map_app. f_equal.
  induction (Z.to_nat n); simpl; congruence.
Qed.

(** X7: decoding with the values of the encoding map changed by a function
    gives the decoded sequence changed entry by entry, and raises the same
    exception: the values are copied, never inspected. *)
Theorem decode_relabel (f : Z -> Z) (bitmap : string) (encoding_map : gmap string Z) :
  decode_bitmap_rle bitmap (f <$> encoding_map)
  = result_bind (decode_bitmap_rle bitmap encoding_map)
      (fun flat_mask => Return (map f flat_mask)).
Proof. unfold decode_bitmap_rle. apply (decode_loop_fmap f _ _ []). Qed.

(** X8: a pair whose count is zero or negative, but not below the index
    type, contributes nothing: when its delimiter is a key of the map and
    its run-length is within the limit on digits, removing the pair from the
    bitmap does not change what the decoder returns or raises. *)
Theorem decode_skips_nonpositive_run (encoding_map : gmap string Z)
    (b1 num : string) (d : ascii) (b2 : string) (n : Z) :
  complete b1 = true ->
  no_delimiter num = true -> Py.is_delimiter d = true ->
  is_Some (encoding_map !! String d EmptyString) ->
  Py.within_digit_limit num = true ->
  Py.int num = Some n -> Py.ssize_t_min <= n <= 0 ->
  decode_bitmap_rle (b1 +:+ num +:+ String d b2) encoding_map
  = decode_bitmap_rle (b1 +:+ b2) encoding_map.
Proof.
  intros Hc Hn Hd [v Hv] _ Hi Hle.
  rewrite !(decode_concat _ _ _ Hc), (decode_cons _ _ _ _ Hn Hd), Hv, Hi.
  rewrite list_mul_fits by lia. replace (Z.to_nat n) with O by lia. simpl.
  destruct (decode_bitmap_rle b1 encoding_map); simpl; [|reflexivity].
  now destruct (decode_bitmap_rle b2 encoding_map).
Qed.

Lemma decode_skips_nonpositive_run_minus3N :
  decode_bitmap_rle ("2Z" +:+ "-3" +:+ String "N" "1N") ZN
  = decode_bitmap_rle ("2Z" +:+ "1N") ZN.
Proof.
  exact (decode_skips_nonpositive_run ZN "2Z" "-3" "N" "1N" (-3)
           eq_refl eq_refl eq_refl ltac:(eexists; reflexivity) eq_refl eq_refl
           ltac:(unfold Py.ssize_t_min; lia)).
Defined.

(** ** Reads of the cached properties *)

Module SegmentationReads.
Import SegmentationPrediction.

Lemma seg_observe_fields self :
  coherent self ->
  observe self
  = (mask_of_fields self,
     result_bind (mask_of_fields self) (fun a => Return (np.count_nonzero a)),
     result_bind (mask_of_fields self)
       (fun a => truediv (np.count_nonzero a) (math.prod (mask_shape self)))).
Proof.
  intros H. unfold observe.
  destruct (SegmentationFacts.seg_mask_read self H) as [-> _].
  destruct (SegmentationFacts.seg_num_read self H) as [-> _].
  destruct (SegmentationFacts.seg_percentage_read self H) as [-> _].
  reflexivity.
Qed.

Lemma seg_observe_kept self self' :
  coherent self -> kept self self' -> observe self' = observe self.
Proof.
  intros H (Hf & Hs & H'). rewrite (seg_observe_fields _ H), (seg_observe_fields _ H').
  now rewrite Hf, Hs.
Qed.

Lemma seg_error_no_entries self e :
  coherent self -> mask_of_fields self = Raise e ->
  dict_decoded_boolean_mask self = None /\
  dict_num_predicted_pixels self = None /\
  dict_percentage_predicted_pixels self = None.
Proof.
  intros (Hm & Hn & Hq) He. repeat split.
  - destruct (dict_decoded_boolean_mask self) as [a|]; [|reflexivity].
    specialize (Hm a eq_refl). congruence.
  - destruct (dict_num_predicted_pixels self) as [n|]; [|reflexivity].
    destruct (Hn n eq_refl) as (a & Ha & _). congruence.
  - destruct (dict_percentage_predicted_pixels self) as [q|]; [|reflexivity].
    destruct (Hq q eq_refl) as (a & Ha & _). congruence.
Qed.

End SegmentationReads.

(** X9: on a [SegmentationPrediction] that was constructed and then only
    read, reading any of the three cached properties changes nothing of
    what any of the three returns afterwards. *)
Theorem seg_reads_do_not_interfere (self : SegmentationPrediction.t) :
  SegmentationPrediction.reachable self ->
  observe (snd (SegmentationPrediction.decoded_boolean_mask self)) = observe self /\
  observe (snd (num_predicted_pixels self)) = observe self /\
  observe (snd (SegmentationPrediction.percentage_predicted_pixels self))
  = observe self.
Proof.
  intros Hr. apply SegmentationFacts.seg_reachable_coherent in Hr.
  split; [|split]; apply (SegmentationReads.seg_observe_kept _ _ Hr).
  - apply (SegmentationFacts.seg_mask_read self Hr).
  - apply (SegmentationFacts.seg_num_read self Hr).
  - apply (SegmentationFacts.seg_percentage_read self Hr).
Qed.

Lemma seg_reads_do_not_interfere_2x2 :
  let self := segmentation_of 1 "1N2Z1N" ZN (2, 2) in
  observe (snd (SegmentationPrediction.decoded_boolean_mask self)) = observe self /\
  observe (snd (num_predicted_pixels self)) = observe self /\
  observe (snd (SegmentationPrediction.percentage_predicted_pixels self))
  = observe self.
Proof.
  exact (seg_reads_do_not_interfere _
           (SegmentationPrediction.reachable_new
              (9 # 10) "car" 1 "uuid" "1N2Z1N" ZN (2, 2) _ eq_refl)).
Defined.

(** X10: when decoding the mask raises, reading [num_predicted_pixels] and
    [percentage_predicted_pixels] raises the same exception, and none of the
    three reads stores anything in the object. *)
Theorem seg_mask_error_propagates (self : SegmentationPrediction.t) (e : exception) :
  SegmentationPrediction.reachable self ->
  fst (SegmentationPrediction.decoded_boolean_mask self) = Raise e ->
  SegmentationPrediction.decoded_boolean_mask self = (Raise e, self) /\
  num_predicted_pixels self = (Raise e, self) /\
  SegmentationPrediction.percentage_predicted_pixels self = (Raise e, self).
Proof.
  intros Hr He. apply SegmentationFacts.seg_reachable_coherent in Hr.
  destruct (SegmentationFacts.seg_mask_read self Hr) as [Hv _].
  rewrite Hv in He.
  destruct (SegmentationReads.seg_error_no_entries self e Hr He) as (Dm & Dn & Dq).
  assert (Hmask : SegmentationPrediction.decoded_boolean_mask self = (Raise e, self)).
  { unfold SegmentationPrediction.decoded_boolean_mask, cached_property.
    now rewrite Dm, SegmentationFacts.seg_mask_body, He. }
  split; [exact Hmask|]. split.
  - unfold num_predicted_pixels, SegmentationPrediction.num_predicted_pixels_instance,
      cached_property.
    rewrite Dn. unfold SegmentationPrediction.num_predicted_pixels_body, bind.
    now rewrite Hmask.
  - unfold SegmentationPrediction.percentage_predicted_pixels, cached_property.
    rewrite Dq. unfold SegmentationPrediction.percentage_predicted_pixels_body, bind.
    now rewrite Hmask.
Qed.

Lemma seg_mask_error_propagates_KeyError :
  let self := segmentation_of 1 "3Z1N" AB (2, 2) in
  SegmentationPrediction.decoded_boolean_mask self = (Raise (KeyError "Z"), self) /\
  num_predicted_pixels self = (Raise (KeyError "Z"), self) /\
  SegmentationPrediction.percentage_predicted_pixels self
  = (Raise (KeyError "Z"), self).
Proof.
  exact (seg_mask_error_propagates _ (KeyError "Z")
           (SegmentationPrediction.reachable_new
              (9 # 10) "car" 1 "uuid" "3Z1N" AB (2, 2) _ eq_refl)
           eq_refl).
Defined.

Module SegmentationRepeats.
Import SegmentationPrediction.

Lemma seg_mask_step self :
  match decoded_boolean_mask self with
  | (Return a, self') =>
      decoded_boolean_mask self' = (Return a, self') /\
      mask_shape self' = mask_shape self /\
      dict_num_predicted_pixels self' = dict_num_predicted_pixels self /\
      dict_percentage_predicted_pixels self' = dict_percentage_predicted_pixels self
  | (Raise _, self') => self' = self
  end.
Proof.
  unfold decoded_boolean_mask at 1, cached_property.
  destruct (dict_decoded_boolean_mask self) as [a|] eqn:E.
  - repeat split. unfold decoded_boolean_mask, cached_property. now rewrite E.
  - rewrite SegmentationFacts.seg_mask_body.
    destruct (mask_of_fields self); [|reflexivity]. repeat split.
Qed.

Lemma seg_num_twice self :
  num_predicted_pixels (snd (num_predicted_pixels self)) = num_predicted_pixels self.
Proof.
  unfold num_predicted_pixels, num_predicted_pixels_instance.
  unfold cached_property at 2 3.
  destruct (dict_num_predicted_pixels self) as [n|] eqn:E; simpl.
  - unfold cached_property. now rewrite E.
  - unfold num_predicted_pixels_body at 2 3, bind, ret.
    pose proof (seg_mask_step self) as Hstep.
    destruct (decoded_boolean_mask self) as [[a|e] s1] eqn:Em; simpl.
    + reflexivity.
    + subst s1. unfold cached_property. rewrite E.
      unfold num_predicted_pixels_body, bind. now rewrite Em.
Qed.

Lemma seg_percentage_twice self :
  percentage_predicted_pixels (snd (percentage_predicted_pixels self))
  = percentage_predicted_pixels self.
Proof.
  unfold percentage_predicted_pixels.
  unfold cached_property at 2 3.
  destruct (dict_percentage_predicted_pixels self) as [q|] eqn:E; simpl.
  - unfold cached_property. now rewrite E.
  - unfold percentage_predicted_pixels_body at 2 3, bind, field, lift.
    pose proof (seg_mask_step self) as Hstep.
    destruct (decoded_boolean_mask self) as [[a|e] s1] eqn:Em; simpl.
    + destruct Hstep as (Hagain & Hshape & _ & Hpct).
      destruct (truediv (np.count_nonzero a) (math.prod (mask_shape s1)))
        as [q|e] eqn:Ed; simpl; [reflexivity|].
      unfold cached_property. rewrite Hpct, E.
      unfold percentage_predicted_pixels_body, bind, field, lift.
      now rewrite Hagain, Ed.
    + subst s1. unfold cached_property. rewrite E.
      unfold percentage_predicted_pixels_body, bind. now rewrite Em.
Qed.

Lemma seg_num_stored self :
  match num_predicted_pixels self with
  | (Return n, self') =>
      dict_num_predicted_pixels self' = Some n /\
      forall other, dict_num_predicted_pixels other = Some n ->
        num_predicted_pixels other = (Return n, other)
  | (Raise _, self') => self' = self
  end.
Proof.
  assert (Hit : forall n other, dict_num_predicted_pixels other = Some n ->
                  num_predicted_pixels other = (Return n, other)).
  { intros n other E.
    unfold num_predicted_pixels, num_predicted_pixels_instance, cached_property.
    now rewrite E. }
  unfold num_predicted_pixels at 1, num_predicted_pixels_instance, cached_property.
  destruct (dict_num_predicted_pixels self) as [n|] eqn:E.
  - split; [exact E | apply Hit].
  - unfold num_predicted_pixels_body, bind, ret.
    pose proof (seg_mask_step self) as Hstep.
    destruct (decoded_boolean_mask self) as [[a|e] s1]; simpl.
    + split; [reflexivity | apply Hit].
    + exact Hstep.
Qed.

Lemma seg_percentage_stored self :
  match percentage_predicted_pixels self with
  | (Return q, self') =>
      dict_percentage_predicted_pixels self' = Some q /\
      forall other, dict_percentage_predicted_pixels other = Some q ->
        percentage_predicted_pixels other = (Return q, other)
  | (Raise _, self') => dict_percentage_predicted_pixels self' = None
  end.
Proof.
  assert (Hit : forall q other, dict_percentage_predicted_pixels other = Some q ->
                  percentage_predicted_pixels other = (Return q, other)).
  { intros q other E. unfold percentage_predicted_pixels, cached_property.
    now rewrite E. }
  unfold percentage_predicted_pixels at 1, cached_property.
  destruct (dict_percentage_predicted_pixels self) as [q|] eqn:E.
  - split; [exact E | apply Hit].
  - unfold percentage_predicted_pixels_body, bind, field, lift.
    pose proof (seg_mask_step self) as Hstep.
    destruct (decoded_boolean_mask self) as [[a|e] s1]; simpl.
    + destruct Hstep as (_ & _ & _ & Hpct).
      destruct (truediv (np.count_nonzero a) (math.prod (mask_shape s1)))
        as [q|e]; simpl.
      * split; [reflexivity | apply Hit].
      * now rewrite Hpct.
    + now subst s1.
Qed.

End SegmentationRepeats.

(** X11: [num_predicted_pixels] and [percentage_predicted_pixels] of a
    [SegmentationPrediction] are cached in the [__dict__]: a read that
    returns has stored the value, and on every object whose [__dict__]
    holds a value the read returns that value and leaves the object as it
    is, whatever its mask is, so without counting again; a read that
    raises stores no value; and in every case a second read returns or
    raises what the first did and leaves the object as the first left
    it. *)
Theorem seg_statistics_memoized (self : SegmentationPrediction.t) :
  (match num_predicted_pixels self with
   | (Return n, self') =>
       SegmentationPrediction.dict_num_predicted_pixels self' = Some n /\
       forall other,
         SegmentationPrediction.dict_num_predicted_pixels other = Some n ->
         num_predicted_pixels other = (Return n, other)
   | (Raise _, self') => self' = self
   end) /\
  (match SegmentationPrediction.percentage_predicted_pixels self with
   | (Return q, self') =>
       SegmentationPrediction.dict_percentage_predicted_pixels self' = Some q /\
       forall other,
         SegmentationPrediction.dict_percentage_predicted_pixels other = Some q ->
         SegmentationPrediction.percentage_predicted_pixels other = (Return q, other)
   | (Raise _, self') =>
       SegmentationPrediction.dict_percentage_predicted_pixels self' = None
   end) /\
  num_predicted_pixels (snd (num_predicted_pixels self))
  = num_predicted_pixels self /\
  SegmentationPrediction.percentage_predicted_pixels
    (snd (SegmentationPrediction.percentage_predicted_pixels self))
  = SegmentationPrediction.percentage_predicted_pixels self.
Proof.
  split; [|split; [|split]];
    [| | apply SegmentationRepeats.seg_num_twice
       | apply SegmentationRepeats.seg_percentage_twice].
  - apply SegmentationRepeats.seg_num_stored.
  - apply SegmentationRepeats.seg_percentage_stored.
Qed.








(** X13: for an [ObjectDetectionPrediction] whose box has xmin <= xmax and
    ymin <= ymax, [num_predicted_pixels] is never negative, and it is zero
    exactly when the box has no width or no height. *)
Theorem od_num_predicted_pixels_sign (self : ObjectDetectionPrediction.t)
    (xmin ymin xmax ymax : Z) :
  ObjectDetectionPrediction.reachable self ->
  ObjectDetectionPrediction.bboxes self = (xmin, ymin, xmax, ymax) ->
  xmin <= xmax -> ymin <= ymax ->
  exists n, fst (num_predicted_pixels self) = Return n /\ 0 <= n /\
            (n = 0 <-> xmin = xmax \/ ymin = ymax).
Proof.
  intros Hr Hb Hx Hy.
  rewrite (ObjectDetectionFacts.od_read_value _
             (ObjectDetectionFacts.od_reachable_coherent _ Hr)).
  rewrite ObjectDetectionFacts.od_body_value, Hb. simpl.
  eexists. split; [reflexivity|]. split; [nia|]. split; [nia|].
  intros [-> | ->]; lia.
Qed.

Lemma od_num_predicted_pixels_sign_flat_box :
  exists n,
    read (ObjectDetectionPrediction.new (9 # 10) "car" 1 "uuid" (10, 10, 30, 10))
      num_predicted_pixels = Return n /\ 0 <= n /\
    (n = 0 <-> 10 = 30 \/ 10 = 10).
Proof.
  exact (od_num_predicted_pixels_sign _ 10 10 30 10
           (ObjectDetectionPrediction.reachable_new
              (9 # 10) "car" 1 "uuid" (10, 10, 30, 10) _ eq_refl)
           eq_refl ltac:(lia) ltac:(lia)).
Defined.

(** ** The index mask and the coloured mask *)

Lemma lookup_triples {A} (l : list A) (p c : nat) :
  (c < 3)%nat ->
  flat_map (fun v => [v; v; v]) l !! (3 * p + c)%nat = l !! p.
Proof.
  intros Hc. revert p. induction l as [|x l IH]; intros p.
  - now rewrite !lookup_nil.
  - change (flat_map (fun v => [v; v; v]) (x :: l))
      with (x :: x :: x :: flat_map (fun v => [v; v; v]) l).
    destruct p as [|p].
    + replace (3 * 0 + c)%nat with c by lia.
      destruct c as [|[|[|c]]]; try reflexivity; lia.
    + replace (3 * S p + c)%nat with (S (S (S (3 * p + c)))) by lia.
      exact (IH p).
Qed.

Lemma uint8_bit_times (b k : Z) :
  is_bit b -> 0 <= k <= 255 -> np.uint8 (b * k) = if b =? 1 then k else 0.
Proof.
  intros [-> | ->] Hk; unfold np.uint8; simpl.
  - reflexivity.
  - rewrite Z.mod_small; [destruct k; reflexivity | lia].
Qed.

Module MaskFacts.
Import SegmentationMasks.

Lemma with_prediction_same s : with_prediction (prediction s) s = s.
Proof. now destruct s. Qed.

Lemma masks_boolean_read s :
  SegmentationPrediction.coherent (prediction s) ->
  fst (decoded_boolean_mask s) = SegmentationPrediction.mask_of_fields (prediction s) /\
  SegmentationPrediction.kept (prediction s) (prediction (snd (decoded_boolean_mask s))) /\
  dict_decoded_index_mask (snd (decoded_boolean_mask s)) = dict_decoded_index_mask s /\
  dict_decoded_colored_mask (snd (decoded_boolean_mask s)) = dict_decoded_colored_mask s /\
  SegmentationPrediction.base (prediction (snd (decoded_boolean_mask s)))
  = SegmentationPrediction.base (prediction s).
Proof.
  intros H. unfold decoded_boolean_mask.
  destruct (SegmentationFacts.seg_mask_read _ H) as [Hv Hk].
  assert (Hb : SegmentationPrediction.base
                 (snd (SegmentationPrediction.decoded_boolean_mask (prediction s)))
               = SegmentationPrediction.base (prediction s)).
  { unfold SegmentationPrediction.decoded_boolean_mask, cached_property.
    destruct (SegmentationPrediction.dict_decoded_boolean_mask (prediction s));
      [reflexivity|].
    rewrite SegmentationFacts.seg_mask_body.
    now destruct (SegmentationPrediction.mask_of_fields (prediction s)). }
  destruct (SegmentationPrediction.decoded_boolean_mask (prediction s)) as [r p].
  simpl in *. auto.
Qed.

Lemma masks_boolean_error s e :
  SegmentationPrediction.coherent (prediction s) ->
  SegmentationPrediction.mask_of_fields (prediction s) = Raise e ->
  decoded_boolean_mask s = (Raise e, s).
Proof.
  intros H He. unfold decoded_boolean_mask.
  destruct (SegmentationFacts.seg_mask_read _ H) as [Hv _]. rewrite He in Hv.
  assert (Hs : snd (SegmentationPrediction.decoded_boolean_mask (prediction s))
               = prediction s).
  { unfold SegmentationPrediction.decoded_boolean_mask, cached_property in *.
    destruct (SegmentationPrediction.dict_decoded_boolean_mask (prediction s));
      [discriminate|].
    now rewrite SegmentationFacts.seg_mask_body, He. }
  destruct (SegmentationPrediction.decoded_boolean_mask (prediction s)) as [r p].
  simpl in *. subst. now rewrite with_prediction_same.
Qed.

End MaskFacts.

Lemma lookup_map {A B} (f : A -> B) (l : list A) (i : nat) :
  map f l !! i = f <$> (l !! i).
Proof.
  revert i. induction l as [|x l IH]; intros [|i]; simpl; try reflexivity.
  apply IH.
Qed.

Lemma lookup_bits (flat : list Z) (n : nat) :
  Forall is_bit flat -> (n < length flat)%nat ->
  exists b, flat !! n = Some b /\ is_bit b.
Proof.
  intros Hb Hn. destruct (lookup_lt_is_Some_2 flat n Hn) as [b Hl].
  exists b. split; [exact Hl|].
  rewrite List.Forall_forall in Hb. apply Hb.
  apply list_elem_of_In. eapply list_elem_of_lookup_2. exact Hl.
Qed.

(** X14: for a mask of 0 and 1 that fills the shape and a label index from
    0 to 255, [decoded_index_mask] returns an array of the mask's shape that
    holds the label index where the mask holds 1 and 0 elsewhere, and stores
    it in the object. *)
Theorem decoded_index_mask_values (self : SegmentationMasks.t)
    (flat : list Z) (h w : Z) :
  SegmentationPrediction.reachable (SegmentationMasks.prediction self) ->
  SegmentationMasks.dict_decoded_index_mask self = None ->
  decode_bitmap_rle
    (SegmentationPrediction.encoded_mask (SegmentationMasks.prediction self))
    (SegmentationPrediction.encoding_map (SegmentationMasks.prediction self))
  = Return flat ->
  SegmentationPrediction.mask_shape (SegmentationMasks.prediction self) = (h, w) ->
  0 <= h -> 0 <= w -> Forall is_bit flat -> Z.of_nat (length flat) = h * w ->
  0 <= label_index (SegmentationPrediction.base (SegmentationMasks.prediction self))
    <= 255 ->
  exists a,
    fst (SegmentationMasks.decoded_index_mask self) = Return a /\
    SegmentationMasks.dict_decoded_index_mask
      (snd (SegmentationMasks.decoded_index_mask self)) = Some a /\
    np.shape a = (h, w) /\
    forall i j, 0 <= i < h -> 0 <= j < w ->
      exists b, flat !! Z.to_nat (i * w + j) = Some b /\
        np.item a i j
        = Some (if b =? 1
                then label_index
                       (SegmentationPrediction.base (SegmentationMasks.prediction self))
                else 0).
Proof.
  intros Hr Hnone Hd Hs Hh Hw Hbits Hlen Hk.
  apply SegmentationFacts.seg_reachable_coherent in Hr.
  destruct (MaskFacts.masks_boolean_read self Hr) as (Hv & _ & _ & _ & Hbase).
  rewrite (seg_mask_of_fields _ flat h w Hd Hs Hh Hw), Hlen, Z.eqb_refl in Hv.
  rewrite (array_uint8_bits flat Hbits) in Hv.
  unfold SegmentationMasks.decoded_index_mask, cached_property. rewrite Hnone.
  unfold SegmentationMasks.decoded_index_mask_body, bind, field, ret.
  destruct (SegmentationMasks.decoded_boolean_mask self) as [r s1].
  simpl in Hv, Hbase. subst r. rewrite Hbase. simpl.
  eexists. split; [reflexivity|]. split; [reflexivity|]. split; [reflexivity|].
  intros i j Hi Hj.
  destruct (lookup_bits flat (Z.to_nat (i * w + j)) Hbits ltac:(nia)) as (b & Hl & Hb).
  exists b. split; [exact Hl|].
  unfold np.item, mul_scalar. simpl.
  replace ((0 <=? i) && (i <? h) && (0 <=? j) && (j <? w)) with true
    by (symmetry; rewrite !andb_true_iff; lia).
  rewrite lookup_map, Hl. simpl. f_equal. now apply uint8_bit_times.
Qed.

Lemma decoded_index_mask_values_label_7 :
  exists a,
    fst (SegmentationMasks.decoded_index_mask (masks_of 7 "1N2Z1N" ZN (2, 2)))
    = Return a /\
    np.shape a = (2, 2) /\ np.item a 0 0 = Some 7 /\ np.item a 0 1 = Some 0.
Proof.
  destruct (decoded_index_mask_values (masks_of 7 "1N2Z1N" ZN (2, 2))
              [1; 0; 0; 1] 2 2
              (SegmentationPrediction.reachable_new
                 (9 # 10) "car" 7 "uuid" "1N2Z1N" ZN (2, 2) _ eq_refl)
              eq_refl eq_refl eq_refl ltac:(lia) ltac:(lia) ltac:(all_bits)
              eq_refl ltac:(simpl; lia))
    as (a & Ha & _ & Hshape & Hitem).
  exists a. split; [exact Ha|]. split; [exact Hshape|]. split.
  - destruct (Hitem 0 0 ltac:(lia) ltac:(lia)) as (b & Hb & Hi).
    injection Hb as <-. exact Hi.
  - destruct (Hitem 0 1 ltac:(lia) ltac:(lia)) as (b & Hb & Hi).
    injection Hb as <-. exact Hi.
Defined.

Module ColoredFacts.
Import SegmentationMasks.

(** The body after a successful read of the mask. *)
Definition tint (mask : np.ndarray) (g : np_random.RandomState)
  : outcome np3.ndarray * np_random.RandomState :=
  match cv2.cvtColor_GRAY2RGB (np3.expand_dims mask) with
  | Done mask_3d =>
      match np_random.randint 0 255 3 g with
      | (Done random_color, g') =>
          (outcome_of_result (np3.mul_color mask_3d random_color), g')
      | (Raised r, g') => (Raised r, g')
      end
  | Raised r => (Raised r, g)
  end.

Lemma colored_body w :
  decoded_colored_mask_body w
  = match decoded_boolean_mask (self w) with
    | (Return mask, s1) =>
        let '(o, g') := tint mask (random_state w) in
        (o, with_random_state g' (with_self s1 w))
    | (Raise e, s1) => (Raised (builtin e), with_self s1 w)
    end.
Proof.
  unfold decoded_colored_mask_body, W_bind, within, W_ret, randint, tint.
  destruct (decoded_boolean_mask (self w)) as [[mask|e] s1]; simpl; [|reflexivity].
  destruct (cv2.cvtColor_GRAY2RGB (np3.expand_dims mask)) as [m3|r]; simpl.
  - destruct (np_random.randint 0 255 3 (random_state w)) as [[c|r] g']; simpl;
      reflexivity.
  - now destruct w.
Qed.

Lemma tint_value (flat : list Z) (h w : Z) (g : np_random.RandomState) :
  0 < h -> 0 < w -> Z.of_nat (length flat) = h * w ->
  tint {| np.shape := (h, w); np.data := flat |} g
  = (Done {| np3.shape := (h, w, 3);
             np3.data :=
               imap (fun k v =>
                       np.uint8 (v * nth (k mod 3)
                                       (map (fun k => 0 + np_random.stream g
                                                        (np_random.position g + k)%nat
                                                        mod (255 - 0)) (seq 0 3)) 0))
                 (flat_map (fun v => [v; v; v]) flat) |},
     np_random.advance 3 g).
Proof.
  intros Hh Hw Hlen. unfold tint, cv2.cvtColor_GRAY2RGB, np3.expand_dims. simpl.
  replace (h * w * 1 =? 0) with false by (symmetry; apply Z.eqb_neq; nia).
  reflexivity.
Qed.

Lemma tint_failure mask g r g' : tint mask g = (Raised r, g') -> g' = g.
Proof.
  unfold tint. destruct (cv2.cvtColor_GRAY2RGB (np3.expand_dims mask)) as [m3|r0] eqn:Ec;
    [|intros H; now injection H as _ <-].
  unfold cv2.cvtColor_GRAY2RGB, np3.expand_dims in Ec.
  destruct (np.shape mask) as [h w]. simpl in Ec.
  match type of Ec with
  | context [if ?c then _ else _] => destruct c
  end; [discriminate|].
  injection Ec as <-. unfold np_random.randint, np3.mul_color. simpl.
  intros [=].
Qed.

End ColoredFacts.

Lemma randint_range (f : nat -> Z) (low high : Z) (l : list nat) :
  low < high ->
  Forall (fun x => low <= x <= high - 1)
    (map (fun k => low + f k mod (high - low)) l).
Proof.
  intros H. induction l as [|k l IH]; simpl; constructor; [|exact IH].
  pose proof (Z.mod_pos_bound (f k) (high - low)). lia.
Qed.

(** X15: for a mask of 0 and 1 that fills a shape with positive height and
    width, the first read of [decoded_colored_mask] draws three numbers from
    0 to 254 from NumPy's global generator and returns an array of shape
    (height, width, 3) that holds the drawn colour where the mask holds 1 and
    0 elsewhere; the array is stored in the object. *)
Theorem decoded_colored_mask_values (w : SegmentationMasks.world)
    (flat : list Z) (h wd : Z) :
  SegmentationPrediction.reachable
    (SegmentationMasks.prediction (SegmentationMasks.self w)) ->
  SegmentationMasks.dict_decoded_colored_mask (SegmentationMasks.self w) = None ->
  decode_bitmap_rle
    (SegmentationPrediction.encoded_mask
       (SegmentationMasks.prediction (SegmentationMasks.self w)))
    (SegmentationPrediction.encoding_map
       (SegmentationMasks.prediction (SegmentationMasks.self w)))
  = Return flat ->
  SegmentationPrediction.mask_shape
    (SegmentationMasks.prediction (SegmentationMasks.self w)) = (h, wd) ->
  0 < h -> 0 < wd -> Forall is_bit flat -> Z.of_nat (length flat) = h * wd ->
  exists a random_color w',
    SegmentationMasks.decoded_colored_mask w = (Done a, w') /\
    length random_color = 3%nat /\
    Forall (fun x => 0 <= x <= 254) random_color /\
    np3.shape a = (h, wd, 3) /\
    (forall i j c, 0 <= i < h -> 0 <= j < wd -> 0 <= c < 3 ->
       exists b, flat !! Z.to_nat (i * wd + j) = Some b /\
         np3.item a i j c
         = Some (if b =? 1 then nth (Z.to_nat c) random_color 0 else 0)) /\
    SegmentationMasks.dict_decoded_colored_mask (SegmentationMasks.self w') = Some a /\
    np_random.position (SegmentationMasks.random_state w')
    = (np_random.position (SegmentationMasks.random_state w) + 3)%nat.
Proof.
  intros Hr Hnone Hd Hs Hh Hw Hbits Hlen.
  apply SegmentationFacts.seg_reachable_coherent in Hr.
  destruct (MaskFacts.masks_boolean_read _ Hr) as (Hv & _).
  rewrite (seg_mask_of_fields _ flat h wd Hd Hs) in Hv by lia.
  rewrite Hlen, Z.eqb_refl, (array_uint8_bits flat Hbits) in Hv.
  unfold SegmentationMasks.decoded_colored_mask. rewrite Hnone.
  rewrite ColoredFacts.colored_body.
  destruct (SegmentationMasks.decoded_boolean_mask (SegmentationMasks.self w))
    as [r s1].
  simpl in Hv. subst r. rewrite (ColoredFacts.tint_value flat h wd _ Hh Hw Hlen).
  set (g := SegmentationMasks.random_state w).
  set (color := map (fun k => 0 + np_random.stream g (np_random.position g + k)%nat
                                 mod (255 - 0)) (seq 0 3)).
  eexists. exists color. eexists. split; [reflexivity|].
  split; [reflexivity|]. split.
  { exact (randint_range
             (fun k => np_random.stream g (np_random.position g + k)%nat)
             0 255 (seq 0 3) ltac:(lia)). }
  split; [reflexivity|]. split; [|split; reflexivity].
  intros i j c Hi Hj Hc.
  destruct (lookup_bits flat (Z.to_nat (i * wd + j)) Hbits ltac:(nia)) as (b & Hl & Hb).
  exists b. split; [exact Hl|].
  unfold np3.item. cbn [np3.shape np3.data].
  replace ((0 <=? i) && (i <? h) && (0 <=? j) && (j <? wd) && (0 <=? c) && (c <? 3))
    with true by (symmetry; rewrite !andb_true_iff; lia).
  replace (Z.to_nat ((i * wd + j) * 3 + c))
    with (3 * Z.to_nat (i * wd + j) + Z.to_nat c)%nat by nia.
  rewrite list_lookup_imap, lookup_triples by lia. rewrite Hl.
  cbn [fmap option_fmap option_map]. f_equal.
  replace ((3 * Z.to_nat (i * wd + j) + Z.to_nat c) mod 3)%nat with (Z.to_nat c).
  2:{ rewrite Nat.add_comm, Nat.mul_comm, Nat.Div0.mod_add.
      symmetry. apply Nat.mod_small. lia. }
  apply uint8_bit_times; [exact Hb|].
  assert (Hcol : Forall (fun x => 0 <= x <= 254) color).
  { exact (randint_range
             (fun k => np_random.stream g (np_random.position g + k)%nat)
             0 255 (seq 0 3) ltac:(lia)). }
  rewrite List.Forall_forall in Hcol.
  assert (Hin : In (nth (Z.to_nat c) color 0) color)
    by (apply nth_In; subst color; simpl; lia).
  specialize (Hcol _ Hin). lia.
Qed.

Lemma decoded_colored_mask_values_2x2 :
  exists a w',
    SegmentationMasks.decoded_colored_mask (masks_world (masks_of 1 "1N2Z1N" ZN (2, 2)))
    = (Done a, w') /\
    np3.shape a = (2, 2, 3) /\
    np3.item a 0 1 2 = Some 0 /\
    np_random.position (SegmentationMasks.random_state w') = 3%nat.
Proof.
  destruct (decoded_colored_mask_values
              (masks_world (masks_of 1 "1N2Z1N" ZN (2, 2))) [1; 0; 0; 1] 2 2
              (SegmentationPrediction.reachable_new
                 (9 # 10) "car" 1 "uuid" "1N2Z1N" ZN (2, 2) _ eq_refl)
              eq_refl eq_refl eq_refl ltac:(lia) ltac:(lia) ltac:(all_bits)
              eq_refl)
    as (a & color & w' & Ha & _ & _ & Hshape & Hitem & _ & Hpos).
  exists a, w'. split; [exact Ha|]. split; [exact Hshape|]. split; [|exact Hpos].
  destruct (Hitem 0 1 2 ltac:(lia) ltac:(lia) ltac:(lia)) as (b & Hb & Hi).
  injection Hb as <-. exact Hi.
Defined.

(** X16: [decoded_colored_mask] draws its colour once: after a read that
    returned, the next read returns the same array and leaves the object and
    the generator as they are; a read that raised has drawn nothing from the
    generator. *)
Theorem decoded_colored_mask_memoized (w : SegmentationMasks.world) :
  match SegmentationMasks.decoded_colored_mask w with
  | (Done a, w') => SegmentationMasks.decoded_colored_mask w' = (Done a, w')
  | (Raised _, w') =>
      SegmentationMasks.random_state w' = SegmentationMasks.random_state w
  end.
Proof.
  unfold SegmentationMasks.decoded_colored_mask at 1.
  destruct (SegmentationMasks.dict_decoded_colored_mask (SegmentationMasks.self w))
    as [a|] eqn:E.
  - unfold SegmentationMasks.decoded_colored_mask. now rewrite E.
  - rewrite ColoredFacts.colored_body.
    destruct (SegmentationMasks.decoded_boolean_mask (SegmentationMasks.self w))
      as [[mask|e] s1]; [|reflexivity].
    destruct (ColoredFacts.tint mask (SegmentationMasks.random_state w))
      as [[a|r] g'] eqn:Et; simpl.
    + reflexivity.
    + exact (ColoredFacts.tint_failure _ _ _ _ Et).
Qed.

(** X17: when decoding the mask raises, the first read of
    [decoded_index_mask] and of [decoded_colored_mask] raises the same
    exception, stores nothing and draws no random number. *)
Theorem masks_surface_decode_error (self : SegmentationMasks.t) (e : exception) :
  SegmentationPrediction.reachable (SegmentationMasks.prediction self) ->
  SegmentationMasks.dict_decoded_index_mask self = None ->
  SegmentationMasks.dict_decoded_colored_mask self = None ->
  fst (SegmentationPrediction.decoded_boolean_mask
         (SegmentationMasks.prediction self)) = Raise e ->
  SegmentationMasks.decoded_index_mask self = (Raise e, self) /\
  forall g,
    SegmentationMasks.decoded_colored_mask
      {| SegmentationMasks.self := self; SegmentationMasks.random_state := g |}
    = (Raised (builtin e),
       {| SegmentationMasks.self := self; SegmentationMasks.random_state := g |}).
Proof.
  intros Hr Hi Hc He. apply SegmentationFacts.seg_reachable_coherent in Hr.
  destruct (SegmentationFacts.seg_mask_read _ Hr) as [Hv _]. rewrite Hv in He.
  pose proof (MaskFacts.masks_boolean_error self e Hr He) as Hm.
  split.
  - unfold SegmentationMasks.decoded_index_mask, cached_property. rewrite Hi.
    unfold SegmentationMasks.decoded_index_mask_body, bind. now rewrite Hm.
  - intros g. unfold SegmentationMasks.decoded_colored_mask. simpl. rewrite Hc.
    rewrite ColoredFacts.colored_body. simpl. now rewrite Hm.
Qed.

Lemma masks_surface_decode_error_KeyError :
  let self := masks_of 1 "3Z1N" AB (2, 2) in
  SegmentationMasks.decoded_index_mask self = (Raise (KeyError "Z"), self) /\
  forall g,
    SegmentationMasks.decoded_colored_mask
      {| SegmentationMasks.self := self; SegmentationMasks.random_state := g |}
    = (Raised (builtin (KeyError "Z")),
       {| SegmentationMasks.self := self; SegmentationMasks.random_state := g |}).
Proof.
  exact (masks_surface_decode_error (masks_of 1 "3Z1N" AB (2, 2)) (KeyError "Z")
           (SegmentationPrediction.reachable_new
              (9 # 10) "car" 1 "uuid" "3Z1N" AB (2, 2) _ eq_refl)
           eq_refl eq_refl eq_refl).
Defined.

(** X18: for a mask without pixels (no decoded value, height * width = 0)
    [decoded_boolean_mask] returns the empty array, but
    [decoded_colored_mask] raises OpenCV's error for an empty image, before
    any random number is drawn. *)
Theorem decoded_colored_mask_of_empty_mask (w : SegmentationMasks.world)
    (h wd : Z) :
  SegmentationPrediction.reachable
    (SegmentationMasks.prediction (SegmentationMasks.self w)) ->
  SegmentationMasks.dict_decoded_colored_mask (SegmentationMasks.self w) = None ->
  decode_bitmap_rle
    (SegmentationPrediction.encoded_mask
       (SegmentationMasks.prediction (SegmentationMasks.self w)))
    (SegmentationPrediction.encoding_map
       (SegmentationMasks.prediction (SegmentationMasks.self w)))
  = Return [] ->
  SegmentationPrediction.mask_shape
    (SegmentationMasks.prediction (SegmentationMasks.self w)) = (h, wd) ->
  0 <= h -> 0 <= wd -> h * wd = 0 ->
  fst (SegmentationPrediction.decoded_boolean_mask
         (SegmentationMasks.prediction (SegmentationMasks.self w)))
  = Return {| np.shape := (h, wd); np.data := [] |} /\
  fst (SegmentationMasks.decoded_colored_mask w) = Raised cv2_error /\
  SegmentationMasks.random_state (snd (SegmentationMasks.decoded_colored_mask w))
  = SegmentationMasks.random_state w.
Proof.
  intros Hr Hnone Hd Hs Hh Hw Hz.
  apply SegmentationFacts.seg_reachable_coherent in Hr.
  destruct (SegmentationFacts.seg_mask_read _ Hr) as [Hseg _].
  destruct (MaskFacts.masks_boolean_read _ Hr) as (Hv & _).
  rewrite (seg_mask_of_fields _ [] h wd Hd Hs Hh Hw) in Hseg, Hv.
  simpl in Hseg, Hv. rewrite Hz in Hseg, Hv. simpl in Hseg, Hv.
  split; [exact Hseg|].
  unfold SegmentationMasks.decoded_colored_mask. rewrite Hnone.
  rewrite ColoredFacts.colored_body.
  destruct (SegmentationMasks.decoded_boolean_mask (SegmentationMasks.self w))
    as [r s1].
  simpl in Hv. subst r.
  unfold ColoredFacts.tint, cv2.cvtColor_GRAY2RGB, np3.expand_dims. simpl.
  replace (h * wd * 1 =? 0) with true by (symmetry; apply Z.eqb_eq; lia).
  simpl. split; reflexivity.
Qed.

Lemma decoded_colored_mask_of_empty_mask_0x0 :
  let w := masks_world (masks_of 1 EmptyString ZN (0, 0)) in
  fst (SegmentationPrediction.decoded_boolean_mask
         (SegmentationMasks.prediction (SegmentationMasks.self w)))
  = Return {| np.shape := (0, 0); np.data := [] |} /\
  fst (SegmentationMasks.decoded_colored_mask w) = Raised cv2_error /\
  SegmentationMasks.random_state (snd (SegmentationMasks.decoded_colored_mask w))
  = SegmentationMasks.random_state w.
Proof.
  exact (decoded_colored_mask_of_empty_mask
           (masks_world (masks_of 1 EmptyString ZN (0, 0))) 0 0
           (SegmentationPrediction.reachable_new
              (9 # 10) "car" 1 "uuid" EmptyString ZN (0, 0) _ eq_refl)
           eq_refl eq_refl eq_refl ltac:(lia) ltac:(lia) eq_refl).
Defined.

(** ** The Streamlit helpers *)

Module CredentialFacts.
Import st_utils.

Lemma truthy_nonempty s : truthy s = true <-> s <> EmptyString.
Proof. destruct s; simpl; split; congruence. Qed.

Lemma prefix_truthy p s : p <> EmptyString -> String.prefix p s = true -> truthy s = true.
Proof. destruct p, s; simpl; congruence. Qed.

End CredentialFacts.

(** X19: when [check_api_credentials_set] returns and the session has an
    entry "api_secret", the session is as it was, and
    [get_api_credential_or_use_default] returns the key and the secret of
    the session, the key not empty: the default key is not used. *)
Theorem checked_credentials_are_used (w w' : st_utils.world) :
  st_utils.check_api_credentials_set w = (Done tt, w') ->
  is_Some (st_utils.session_state w !! "api_secret") ->
  w' = w /\
  exists key secret,
    st_utils.session_state w !! "api_key" = Some key /\ key <> EmptyString /\
    st_utils.session_state w !! "api_secret" = Some secret /\
    st_utils.get_api_credential_or_use_default w = (Done (Some key, secret), w).
Proof.
  unfold st_utils.check_api_credentials_set, st_utils.get_api_credential_or_use_default,
    W_bind, st_utils._import_st, st_utils.session_get, st_utils.session_getitem,
    st_utils.show, st_utils.stop, W_raise, W_ret.
  intros Hc [secret Hs]. destruct (st_utils.streamlit w); [|discriminate].
  destruct (st_utils.session_state w !! "api_key") as [key|] eqn:Ek; [|discriminate].
  destruct (st_utils.truthy key) eqn:Et; [|discriminate].
  rewrite Hs in *. simpl in Hc |- *.
  assert (Hw : w' = w).
  { destruct (String.prefix "land_sk_" key); cbv beta in Hc;
      [now injection Hc as <-|].
    rewrite Hs in Hc. simpl in Hc.
    destruct (st_utils.truthy secret); [now injection Hc as <- | discriminate]. }
  split; [exact Hw|]. exists key, secret.
  split; [reflexivity|]. split; [now apply CredentialFacts.truthy_nonempty|].
  split; reflexivity.
Qed.

Lemma checked_credentials_are_used_v1_key :
  let w := script_run {[ "api_key" := "v1key"; "api_secret" := "s3cret" ]} ∅ untouched false in
  w = w /\
  exists key secret,
    st_utils.session_state w !! "api_key" = Some key /\ key <> EmptyString /\
    st_utils.session_state w !! "api_secret" = Some secret /\
    st_utils.get_api_credential_or_use_default w = (Done (Some key, secret), w).
Proof.
  exact (checked_credentials_are_used
           (script_run {[ "api_key" := "v1key"; "api_secret" := "s3cret" ]} ∅ untouched false)
           _ eq_refl ltac:(eexists; reflexivity)).
Defined.

Ltac st_unfold :=
  unfold st_utils.check_api_credentials_set, st_utils.check_endpoint_id_set,
    st_utils.get_api_credential_or_use_default, st_utils.get_default_api_key,
    st_utils._update_credential, st_utils.set_default,
    st_utils.st_text_input, st_utils.st_form_submit_button,
    W_bind, st_utils._import_st, st_utils.session_get, st_utils.session_getitem,
    st_utils.session_contains, st_utils.session_setitem,
    st_utils.environ_get, st_utils.logger_warning,
    st_utils.show, st_utils.stop, W_raise, W_ret in *.

(** X20: with a key that starts with "land_sk_" and no entry "api_secret"
    in the session, [check_api_credentials_set] returns, and
    [get_api_credential_or_use_default] then raises [KeyError] for
    "api_secret": the check does not establish what the getter reads. *)
Theorem v2_key_without_secret_entry (w : st_utils.world) (key : string) :
  st_utils.streamlit w = true ->
  st_utils.session_state w !! "api_key" = Some key ->
  String.prefix "land_sk_" key = true ->
  st_utils.session_state w !! "api_secret" = None ->
  st_utils.check_api_credentials_set w = (Done tt, w) /\
  st_utils.get_api_credential_or_use_default w
  = (Raised (builtin (KeyError "api_secret")), w).
Proof.
  intros Hst Hk Hp Hs. st_unfold. rewrite Hst, Hk, Hs, Hp.
  rewrite (CredentialFacts.prefix_truthy "land_sk_" key ltac:(discriminate) Hp).
  split; reflexivity.
Qed.

Lemma v2_key_without_secret_entry_land_sk :
  let w := script_run {[ "api_key" := "land_sk_abc" ]} ∅ untouched false in
  st_utils.check_api_credentials_set w = (Done tt, w) /\
  st_utils.get_api_credential_or_use_default w
  = (Raised (builtin (KeyError "api_secret")), w).
Proof.
  exact (v2_key_without_secret_entry
           (script_run {[ "api_key" := "land_sk_abc" ]} ∅ untouched false)
           "land_sk_abc" eq_refl eq_refl eq_refl eq_refl).
Defined.

(** X21: [get_api_credential_or_use_default] never returns an empty API
    key: the key it returns is a non-empty string or [None]. *)
Theorem api_key_never_empty (w : st_utils.world) :
  match st_utils.get_api_credential_or_use_default w with
  | (Done (Some key, _), _) => key <> EmptyString
  | _ => True
  end.
Proof.
  st_unfold. destruct (st_utils.streamlit w); [|exact I].
  destruct (st_utils.session_state w !! "api_key") as [key|]; [|exact I].
  destruct (st_utils.session_state w !! "api_secret") as [secret|]; [|exact I].
  destruct (st_utils.truthy key) eqn:Et; simpl.
  - now apply CredentialFacts.truthy_nonempty.
  - destruct (st_utils.environ w !! st_utils._DEFAULT_API_KEY_ENV_VAR) as [k|];
      simpl; [|exact I].
    destruct (st_utils.truthy k) eqn:Ek; simpl; [|exact I].
    now apply CredentialFacts.truthy_nonempty.
Qed.

(** X22: with Streamlit installed, each of the two checks either returns
    and leaves everything as it is, or shows its one error message and stops
    the script run; neither writes to the session or raises anything else. *)
Theorem checks_only_stop (w : st_utils.world) :
  st_utils.streamlit w = true ->
  (st_utils.check_api_credentials_set w = (Done tt, w) \/
   st_utils.check_api_credentials_set w
   = (Raised StopException,
      st_utils.with_page
        (st_utils.page w ++
         [st_utils.error "Please open the sidebar and enter your API credential first."])
        w)) /\
  (st_utils.check_endpoint_id_set w = (Done tt, w) \/
   st_utils.check_endpoint_id_set w
   = (Raised StopException,
      st_utils.with_page
        (st_utils.page w ++
         [st_utils.error "Please open the sidebar and enter your CloudInference endpoint ID first."])
        w)).
Proof.
  intros Hst. st_unfold. rewrite Hst. split.
  - destruct (st_utils.session_state w !! "api_key") as [key|]; [|now right].
    destruct (st_utils.truthy key); [|now right].
    destruct (String.prefix "land_sk_" key); [now left|].
    destruct (st_utils.truthy_opt (st_utils.session_state w !! "api_secret"));
      [now left | now right].
  - destruct (st_utils.truthy_opt (st_utils.session_state w !! "endpoint_id"));
      [now left | now right].
Qed.

Lemma checks_only_stop_empty_session :
  let w := script_run ∅ ∅ untouched false in
  (st_utils.check_api_credentials_set w = (Done tt, w) \/
   st_utils.check_api_credentials_set w
   = (Raised StopException,
      st_utils.with_page
        (st_utils.page w ++
         [st_utils.error "Please open the sidebar and enter your API credential first."])
        w)) /\
  (st_utils.check_endpoint_id_set w = (Done tt, w) \/
   st_utils.check_endpoint_id_set w
   = (Raised StopException,
      st_utils.with_page
        (st_utils.page w ++
         [st_utils.error "Please open the sidebar and enter your CloudInference endpoint ID first."])
        w)).
Proof. exact (checks_only_stop (script_run ∅ ∅ untouched false) eq_refl). Defined.

Module FormFacts.
Import st_utils.

Lemma W_bind_eq {S A B} (m : W S A) (k : A -> W S B) (s : S) :
  W_bind m k s
  = match m s with
    | (Done a, s') => k a s'
    | (Raised r, s') => (Raised r, s')
    end.
Proof. reflexivity. Qed.

Lemma with_session_state_same w : with_session_state (session_state w) w = w.
Proof. now destruct w. Qed.

Lemma set_default_eq key value w :
  set_default key value w
  = (Done tt, with_session_state (fill key value (session_state w)) w).
Proof.
  unfold set_default, fill, W_bind, session_contains, session_setitem, W_ret.
  destruct (session_state w !! key) as [v|] eqn:E; simpl.
  - now rewrite with_session_state_same.
  - reflexivity.
Qed.

Lemma fill_lookup key value s k :
  fill key value s !! k
  = if decide (k = key) then Some (default value (s !! key)) else s !! k.
Proof.
  unfold fill. destruct (s !! key) as [v|] eqn:E.
  - destruct (decide (k = key)) as [->|]; [exact E | reflexivity].
  - rewrite lookup_insert. destruct (decide (key = k)) as [Hk|Hk];
      destruct (decide (k = key)); simpl; congruence.
Qed.

(** The end of the form: the session is read, not written. *)
Definition form_end : W world unit :=
  perform key_secret <- get_api_credential_or_use_default ;
  perform default_api_key <- get_default_api_key ;
  if bool_decide (fst key_secret = default_api_key)
  then show (info "The default API key (free trial) is used")
  else W_ret tt.

End FormFacts.

Ltac st_norm :=
  unfold st_utils.with_page, st_utils.with_session_state,
    st_utils.with_form_submitters, st_utils.with_log;
  cbn [st_utils.streamlit st_utils.session_state st_utils.form_submitters
       st_utils.environ st_utils.typed
       st_utils.submitted st_utils.page st_utils.log]; cbn beta iota.

Ltac st_step := rewrite FormFacts.W_bind_eq.

Ltac form_finish H4 :=
  match goal with
  | |- exists wc, ?tail ?wc0 = _ /\ _ =>
      change tail with FormFacts.form_end;
      exists wc0; split; [reflexivity|]; st_norm;
      split; [reflexivity|];
      split; [simplify_map_eq; done|];
      split; [simplify_map_eq; done|];
      split; [simplify_map_eq; done|];
      split; [reflexivity|];
      split; [reflexivity|];
      split; [reflexivity|];
      split;
      [ intros key Ha Hb Hc Hd He Hf; rewrite ?lookup_insert_ne by done;
        now apply H4 |];
      split; [eexists; rewrite <- ?app_assoc; reflexivity | apply last_snoc]
  end.

(** The form up to its last three lines: the world in which they run. *)
Lemma render_api_config_form_steps (w : st_utils.world)
    (render_endpoint_id : bool)
    (default_key default_secret default_endpoint_id : string) :
  st_utils.streamlit w = true ->
  let shown key value := default value (st_utils.session_state w !! key) in
  let api_key := st_utils.typed w "lnd_api_key" (shown "api_key" default_key) in
  let api_secret :=
    st_utils.typed w "lnd_api_secret" (shown "api_secret" default_secret) in
  let endpoint_id :=
    st_utils.typed w "lnd_endpoint_id" (shown "endpoint_id" default_endpoint_id) in
  exists wc,
    st_utils.render_api_config_form render_endpoint_id default_key
      default_secret default_endpoint_id w = FormFacts.form_end wc /\
    st_utils.streamlit wc = true /\
    st_utils.session_state wc !! "api_key"
    = Some (if st_utils.submitted w then api_key else shown "api_key" default_key) /\
    st_utils.session_state wc !! "api_secret"
    = Some (if st_utils.submitted w then api_secret
            else shown "api_secret" default_secret) /\
    st_utils.session_state wc !! "endpoint_id"
    = Some (if st_utils.submitted w && render_endpoint_id
               && st_utils.truthy endpoint_id
            then endpoint_id else shown "endpoint_id" default_endpoint_id) /\
    st_utils.environ wc = st_utils.environ w /\
    st_utils.log wc = st_utils.log w /\
    st_utils.form_submitters wc
    = <["FormSubmitter:api_credential_form-Save" := st_utils.submitted w]>
        (st_utils.form_submitters w) /\
    (forall key, key <> "api_key" -> key <> "api_secret" -> key <> "endpoint_id" ->
       key <> "lnd_api_key" -> key <> "lnd_api_secret" -> key <> "lnd_endpoint_id" ->
       st_utils.session_state wc !! key = st_utils.session_state w !! key) /\
    (exists shown_events, st_utils.page wc = (st_utils.page w ++ shown_events)%list) /\
    last (st_utils.page wc)
    = Some (if st_utils.submitted w
            then st_utils.info "API configuration is saved successfully"
            else st_utils.form_submit_button "Save").
Proof.
  intros Hst shown api_key api_secret endpoint_id.
  destruct w as [st ss fs env ty sub pg lg].
  cbn [st_utils.streamlit st_utils.session_state st_utils.typed
       st_utils.submitted] in *. subst st.
  unfold st_utils.render_api_config_form.
  st_step. unfold st_utils._import_st at 1. st_norm.
  do 3 (st_step; rewrite FormFacts.set_default_eq; st_norm).
  set (s1 := fill "endpoint_id" default_endpoint_id
               (fill "api_secret" default_secret
                  (fill "api_key" default_key ss))).
  assert (H1 : s1 !! "api_key" = Some (shown "api_key" default_key)).
  { subst s1. rewrite !FormFacts.fill_lookup. now repeat case_decide. }
  assert (H2 : s1 !! "api_secret" = Some (shown "api_secret" default_secret)).
  { subst s1. rewrite !FormFacts.fill_lookup. repeat case_decide; done. }
  assert (H3 : s1 !! "endpoint_id" = Some (shown "endpoint_id" default_endpoint_id)).
  { subst s1. rewrite !FormFacts.fill_lookup. repeat case_decide; done. }
  assert (H4 : forall key, key <> "api_key" -> key <> "api_secret" ->
                 key <> "endpoint_id" -> s1 !! key = ss !! key).
  { intros key Ha Hb Hc. subst s1. rewrite !FormFacts.fill_lookup.
    now repeat case_decide. }
  clearbody s1.
  st_step. unfold st_utils.show at 1. st_norm.
  st_step. unfold st_utils.session_getitem at 1. st_norm. rewrite H1. st_norm.
  st_step. unfold st_utils.st_text_input at 1. st_norm.
  st_step. unfold st_utils.session_getitem at 1. st_norm.
  rewrite lookup_insert_ne by done. rewrite H2. st_norm.
  st_step. unfold st_utils.st_text_input at 1. st_norm.
  st_step.
  destruct render_endpoint_id.
  - st_step. unfold st_utils.session_get at 1. st_norm.
    rewrite !lookup_insert_ne by done. rewrite H3.
    cbn [default from_option id]. st_step. unfold st_utils.st_text_input at 1.
    st_norm. unfold W_ret at 1. st_norm.
    st_step. unfold st_utils.st_form_submit_button at 1. st_norm.
    st_step. destruct sub.
    + st_step. unfold st_utils._update_credential.
      do 2 (st_step; unfold st_utils.session_setitem at 1; st_norm).
      fold endpoint_id. destruct (st_utils.truthy endpoint_id) eqn:Et.
      * unfold st_utils.session_setitem at 1, st_utils.show at 1. st_norm.
        form_finish H4.
      * unfold W_ret at 1, st_utils.show at 1. st_norm. form_finish H4.
    + unfold W_ret at 1. st_norm. form_finish H4.
  - unfold W_ret at 1. st_norm.
    st_step. unfold st_utils.st_form_submit_button at 1. st_norm.
    st_step. destruct sub.
    + st_step. unfold st_utils._update_credential.
      do 2 (st_step; unfold st_utils.session_setitem at 1; st_norm).
      unfold W_ret at 1, st_utils.show at 1. st_norm. form_finish H4.
    + unfold W_ret at 1. st_norm. form_finish H4.
Qed.

Module FormEndFacts.
Import st_utils.

Lemma get_default_api_key_value w :
  get_default_api_key w
  = match environ w !! _DEFAULT_API_KEY_ENV_VAR with
    | Some k =>
        if truthy k then (Done (Some k), w)
        else (Done None, with_log (log w ++ [default_key_warning]) w)
    | None => (Done None, with_log (log w ++ [default_key_warning]) w)
    end.
Proof.
  unfold get_default_api_key, W_bind, environ_get, logger_warning, W_ret.
  destruct (environ w !! _DEFAULT_API_KEY_ENV_VAR) as [k|]; [|reflexivity].
  simpl. now destruct (truthy k).
Qed.

Lemma get_api_credential_value w key secret :
  streamlit w = true ->
  session_state w !! "api_key" = Some key ->
  session_state w !! "api_secret" = Some secret ->
  get_api_credential_or_use_default w
  = if truthy key then (Done (Some key, secret), w)
    else let '(o, w') := get_default_api_key w in
         (match o with Done d => Done (d, secret) | Raised r => Raised r end, w').
Proof.
  intros Hst Hk Hs. unfold get_api_credential_or_use_default.
  rewrite FormFacts.W_bind_eq. unfold _import_st. rewrite Hst. cbn beta iota.
  rewrite FormFacts.W_bind_eq. unfold session_getitem at 1. rewrite Hk. cbn beta iota.
  rewrite FormFacts.W_bind_eq. unfold session_getitem at 1. rewrite Hs. cbn beta iota.
  destruct (truthy key); cbn [negb]; [reflexivity|].
  rewrite FormFacts.W_bind_eq.
  destruct (get_default_api_key w) as [[d|r] w']; reflexivity.
Qed.

Lemma get_api_credential_returns w key secret :
  streamlit w = true ->
  session_state w !! "api_key" = Some key ->
  session_state w !! "api_secret" = Some secret ->
  exists credential w'',
    get_api_credential_or_use_default w = (Done credential, w'').
Proof.
  intros Hst Hk Hs. rewrite (get_api_credential_value w key secret Hst Hk Hs).
  destruct (truthy key); [do 2 eexists; reflexivity|].
  rewrite get_default_api_key_value.
  destruct (environ w !! _DEFAULT_API_KEY_ENV_VAR) as [k|];
    [destruct (truthy k)|]; cbn beta iota; do 2 eexists; reflexivity.
Qed.

(** The last three lines of the form. *)
Lemma form_end_value w key secret :
  streamlit w = true ->
  session_state w !! "api_key" = Some key ->
  session_state w !! "api_secret" = Some secret ->
  exists w',
    FormFacts.form_end w = (Done tt, w') /\
    session_state w' = session_state w /\
    streamlit w' = streamlit w /\
    page w'
    = (page w ++
       if bool_decide (key = EmptyString \/
                       environ w !! _DEFAULT_API_KEY_ENV_VAR = Some key)
       then [info "The default API key (free trial) is used"] else [])%list /\
    (key = EmptyString -> environ w !! _DEFAULT_API_KEY_ENV_VAR = None ->
     log w' = (log w ++ [default_key_warning; default_key_warning])%list).
Proof.
  intros Hst Hk Hs. unfold FormFacts.form_end.
  rewrite FormFacts.W_bind_eq, (get_api_credential_value w key secret Hst Hk Hs).
  destruct key as [|c key]; cbn [truthy].
  - rewrite get_default_api_key_value.
    rewrite bool_decide_eq_true_2 by now left.
    destruct (environ w !! _DEFAULT_API_KEY_ENV_VAR) as [k|] eqn:Ee.
    + destruct (truthy k) eqn:Et; cbn beta iota.
      * rewrite FormFacts.W_bind_eq, get_default_api_key_value, Ee, Et.
        cbn beta iota. rewrite bool_decide_eq_true_2 by reflexivity.
        unfold show. eexists. split; [reflexivity|]. st_norm.
        split; [reflexivity|]. split; [reflexivity|]. split; [reflexivity | discriminate].
      * rewrite FormFacts.W_bind_eq, get_default_api_key_value. st_norm.
        rewrite Ee, Et. cbn beta iota. rewrite bool_decide_eq_true_2 by reflexivity.
        unfold show. eexists. split; [reflexivity|]. st_norm.
        split; [reflexivity|]. split; [reflexivity|]. split; [reflexivity | discriminate].
    + cbn beta iota.
      rewrite FormFacts.W_bind_eq, get_default_api_key_value. st_norm.
      rewrite Ee. cbn beta iota. rewrite bool_decide_eq_true_2 by reflexivity.
      unfold show. eexists. split; [reflexivity|]. st_norm.
      split; [reflexivity|]. split; [reflexivity|]. split; [reflexivity|].
      intros _ _. now rewrite <- app_assoc.
  - cbn beta iota. rewrite FormFacts.W_bind_eq, get_default_api_key_value.
    destruct (environ w !! _DEFAULT_API_KEY_ENV_VAR) as [k|] eqn:Ee.
    + destruct (truthy k) eqn:Et; cbn beta iota delta [fst].
      * destruct (decide (k = String c key)) as [->|Hne].
        -- rewrite !bool_decide_eq_true_2 by (try right; reflexivity).
           unfold show. eexists. split; [reflexivity|]. st_norm.
           split; [reflexivity|]. split; [reflexivity|]. split; [reflexivity | discriminate].
        -- rewrite (bool_decide_eq_false_2 (Some (String c key) = Some k))
             by congruence.
           rewrite bool_decide_eq_false_2 by (intros [H | H]; congruence).
           unfold W_ret. eexists. split; [reflexivity|].
           rewrite app_nil_r. split; [reflexivity|]. split; [reflexivity|]. split; [reflexivity | discriminate].
      * rewrite bool_decide_eq_false_2 by discriminate.
        rewrite bool_decide_eq_false_2.
        2:{ intros [H | H]; [discriminate|]. injection H as ->. discriminate. }
        unfold W_ret. eexists. split; [reflexivity|]. st_norm.
        rewrite app_nil_r. split; [reflexivity|]. split; [reflexivity|]. split; [reflexivity | discriminate].
    + cbn beta iota delta [fst]. rewrite bool_decide_eq_false_2 by discriminate.
      rewrite bool_decide_eq_false_2 by (intros [H | H]; discriminate).
      unfold W_ret. eexists. split; [reflexivity|]. st_norm.
      rewrite app_nil_r. split; [reflexivity|]. split; [reflexivity|]. split; [reflexivity | discriminate].
Qed.

(** The last three lines of the form show and log; they store nothing. *)
Lemma form_end_form_submitters w :
  form_submitters (snd (FormFacts.form_end w)) = form_submitters w.
Proof.
  unfold FormFacts.form_end. rewrite FormFacts.W_bind_eq.
  unfold get_api_credential_or_use_default. rewrite FormFacts.W_bind_eq.
  unfold _import_st. destruct (streamlit w); [|reflexivity].
  rewrite FormFacts.W_bind_eq. unfold session_getitem at 1.
  destruct (session_state w !! "api_key") as [key|]; [|reflexivity].
  rewrite FormFacts.W_bind_eq. unfold session_getitem at 1.
  destruct (session_state w !! "api_secret") as [secret|]; [|reflexivity].
  destruct (truthy key); cbn [negb].
  - unfold W_ret at 1. rewrite FormFacts.W_bind_eq, get_default_api_key_value.
    destruct (environ w !! _DEFAULT_API_KEY_ENV_VAR) as [k|];
      [destruct (truthy k)|]; cbn beta iota;
      destruct (bool_decide _); reflexivity.
  - rewrite FormFacts.W_bind_eq, get_default_api_key_value.
    destruct (environ w !! _DEFAULT_API_KEY_ENV_VAR) as [k|];
      [destruct (truthy k)|]; cbn beta iota; unfold W_ret at 1;
      rewrite FormFacts.W_bind_eq, get_default_api_key_value; st_norm;
      [destruct (environ w !! _DEFAULT_API_KEY_ENV_VAR) as [k'|];
         [destruct (truthy k')|] ..]; cbn beta iota;
      destruct (bool_decide _); reflexivity.
Qed.

End FormEndFacts.

(** X23: with Streamlit installed, [render_api_config_form] returns, and
    afterwards the session has the three entries "api_key", "api_secret" and
    "endpoint_id": what the user typed when the form was submitted (the
    endpoint ID only if its input is rendered and not empty), else what the
    session had, else the default given; apart from these and the text kept
    under the three widget keys the entries that hold strings are unchanged,
    and the only other entry written is the one that Streamlit keeps for the
    submit button, "FormSubmitter:api_credential_form-Save";
    [get_api_credential_or_use_default] returns on the session. *)
Theorem render_api_config_form_session (w : st_utils.world)
    (render_endpoint_id : bool)
    (default_key default_secret default_endpoint_id : string) :
  st_utils.streamlit w = true ->
  let shown key value := default value (st_utils.session_state w !! key) in
  let api_key := st_utils.typed w "lnd_api_key" (shown "api_key" default_key) in
  let api_secret :=
    st_utils.typed w "lnd_api_secret" (shown "api_secret" default_secret) in
  let endpoint_id :=
    st_utils.typed w "lnd_endpoint_id" (shown "endpoint_id" default_endpoint_id) in
  exists w',
    st_utils.render_api_config_form render_endpoint_id default_key
      default_secret default_endpoint_id w = (Done tt, w') /\
    st_utils.session_state w' !! "api_key"
    = Some (if st_utils.submitted w then api_key else shown "api_key" default_key) /\
    st_utils.session_state w' !! "api_secret"
    = Some (if st_utils.submitted w then api_secret
            else shown "api_secret" default_secret) /\
    st_utils.session_state w' !! "endpoint_id"
    = Some (if st_utils.submitted w && render_endpoint_id
               && st_utils.truthy endpoint_id
            then endpoint_id else shown "endpoint_id" default_endpoint_id) /\
    (forall key, key <> "api_key" -> key <> "api_secret" -> key <> "endpoint_id" ->
       key <> "lnd_api_key" -> key <> "lnd_api_secret" -> key <> "lnd_endpoint_id" ->
       st_utils.session_state w' !! key = st_utils.session_state w !! key) /\
    st_utils.form_submitters w'
    = <["FormSubmitter:api_credential_form-Save" := st_utils.submitted w]>
        (st_utils.form_submitters w) /\
    exists credential w'',
      st_utils.get_api_credential_or_use_default w' = (Done credential, w'').
Proof.
  intros Hst shown api_key api_secret endpoint_id.
  destruct (render_api_config_form_steps w render_endpoint_id default_key
              default_secret default_endpoint_id Hst)
    as (wc & -> & Hstc & Hk & Hs & He & _ & _ & Hbutton & Hother & _).
  pose proof (FormEndFacts.form_end_form_submitters wc) as Hfs.
  destruct (FormEndFacts.form_end_value wc _ _ Hstc Hk Hs)
    as (w' & Hend & Hsame & Hst' & _).
  rewrite Hend in Hfs |- *. cbn [snd] in Hfs.
  exists w'. split; [reflexivity|]. rewrite Hsame.
  split; [exact Hk|]. split; [exact Hs|]. split; [exact He|].
  split; [exact Hother|]. split; [now rewrite Hfs|].
  rewrite <- Hsame in Hk, Hs. rewrite Hstc in Hst'.
  exact (FormEndFacts.get_api_credential_returns w' _ _ Hst' Hk Hs).
Qed.

Lemma render_api_config_form_session_typed_key :
  exists w',
    st_utils.render_api_config_form true EmptyString EmptyString "endpoint-1"
      (script_run ∅ ∅ (types_api_key "land_sk_abc") true) = (Done tt, w') /\
    st_utils.session_state w' !! "api_key" = Some "land_sk_abc" /\
    st_utils.session_state w' !! "api_secret" = Some EmptyString /\
    st_utils.session_state w' !! "endpoint_id" = Some "endpoint-1" /\
    st_utils.form_submitters w'
    = {[ "FormSubmitter:api_credential_form-Save" := true ]}.
Proof.
  destruct (render_api_config_form_session
              (script_run ∅ ∅ (types_api_key "land_sk_abc") true)
              true EmptyString EmptyString "endpoint-1" eq_refl)
    as (w' & Hrun & Hkey & Hsecret & Hendpoint & _ & Hbutton & _).
  exists w'. split; [exact Hrun|]. split; [exact Hkey|].
  split; [exact Hsecret|]. split; [exact Hendpoint | exact Hbutton].
Defined.

(** X24: the last thing [render_api_config_form] shows is the note that the
    default (free trial) key is used exactly when the API key left in the
    session is empty or equal to the environment's LANDINGAI_API_KEY; this
    includes the case of an empty key with no default key in the
    environment, where the warning that no default key is set is logged
    twice. *)
Theorem render_api_config_form_default_key_info (w : st_utils.world)
    (render_endpoint_id : bool)
    (default_key default_secret default_endpoint_id : string) :
  st_utils.streamlit w = true ->
  let shown := default default_key (st_utils.session_state w !! "api_key") in
  let key :=
    if st_utils.submitted w then st_utils.typed w "lnd_api_key" shown else shown in
  exists w',
    st_utils.render_api_config_form render_endpoint_id default_key
      default_secret default_endpoint_id w = (Done tt, w') /\
    (last (st_utils.page w')
     = Some (st_utils.info "The default API key (free trial) is used") <->
     key = EmptyString \/
     st_utils.environ w !! st_utils._DEFAULT_API_KEY_ENV_VAR = Some key) /\
    (key = EmptyString ->
     st_utils.environ w !! st_utils._DEFAULT_API_KEY_ENV_VAR = None ->
     st_utils.log w'
     = (st_utils.log w ++ [default_key_warning; default_key_warning])%list).
Proof.
  intros Hst shown key.
  destruct (render_api_config_form_steps w render_endpoint_id default_key
              default_secret default_endpoint_id Hst)
    as (wc & -> & Hstc & Hk & Hs & _ & Henv & Hlog & _ & _ & _ & Hlast).
  destruct (FormEndFacts.form_end_value wc _ _ Hstc Hk Hs)
    as (w' & -> & _ & _ & Hpage & Hwarn).
  exists w'. split; [reflexivity|]. rewrite Henv in *. rewrite Hlog in Hwarn.
  split; [|exact Hwarn].
  rewrite Hpage. fold shown key.
  destruct (decide (key = EmptyString \/
              st_utils.environ w !! st_utils._DEFAULT_API_KEY_ENV_VAR = Some key))
    as [Hc|Hc];
    [rewrite bool_decide_eq_true_2 by exact Hc
    |rewrite bool_decide_eq_false_2 by exact Hc].
  - rewrite last_snoc. tauto.
  - rewrite app_nil_r, Hlast. split; [|tauto].
    destruct (st_utils.submitted w); discriminate.
Qed.

Lemma render_api_config_form_default_key_info_unset :
  exists w',
    st_utils.render_api_config_form false EmptyString EmptyString EmptyString
      (script_run ∅ ∅ untouched false) = (Done tt, w') /\
    last (st_utils.page w')
    = Some (st_utils.info "The default API key (free trial) is used") /\
    st_utils.log w' = [default_key_warning; default_key_warning].
Proof.
  destruct (render_api_config_form_default_key_info
              (script_run ∅ ∅ untouched false) false EmptyString EmptyString EmptyString
              eq_refl)
    as (w' & Hrun & Hinfo & Hlog).
  exists w'. split; [exact Hrun|]. split.
  - apply Hinfo. left. reflexivity.
  - exact (Hlog eq_refl eq_refl).
Defined.

(** ** render_svg *)

Example b64_examples :
  map (fun s => base64.b64encode (utf8.encode s)) [EmptyString; "f"; "fo"; "foo"; "foob"; "fooba"; "foobar"]
  = [EmptyString; "Zg=="; "Zm8="; "Zm9v"; "Zm9vYg=="; "Zm9vYmE="; "Zm9vYmFy"].
Proof. reflexivity. Qed.

Example b64_decode_examples :
  map base64.b64decode ["Zg=="; "Zm8="; "Zm9vYmFy"]
  = [Some [102]; Some [102; 111]; Some [102;111;111;98;97;114]].
Proof. reflexivity. Qed.

Example utf8_example : utf8.encode (String (ascii_of_nat 233) "a") = [195; 169; 97].
Proof. reflexivity. Qed.
Lemma char_value (n : Z) : 0 <= n < 64 -> base64.value (base64.char n) = Some n.
Proof.
  intros Hn. rewrite <- (Z2Nat.id n) by lia.
  assert (Hlt : (Z.to_nat n < 64)%nat) by lia.
  generalize dependent (Z.to_nat n). clear n Hn. intros n Hlt.
  do 64 (destruct n as [|n]; [reflexivity|]). lia.
Qed.

Lemma char_not_pad (n : Z) : 0 <= n < 64 -> Ascii.eqb (base64.char n) "=" = false.
Proof.
  intros Hn. rewrite <- (Z2Nat.id n) by lia.
  assert (Hlt : (Z.to_nat n < 64)%nat) by lia.
  generalize dependent (Z.to_nat n). clear n Hn. intros n Hlt.
  do 64 (destruct n as [|n]; [reflexivity|]). lia.
Qed.

Ltac six_bits := unfold byte in *; Z.div_mod_to_equations; lia.

Lemma b64decode_fuel_encode (l : list Z) (fuel : nat) :
  Forall byte l -> (length l <= 3 * fuel)%nat ->
  base64.b64decode_fuel fuel (base64.b64encode l) = Some l.
Proof.
  revert l. induction fuel as [|fuel IH]; intros l Hl Hlen.
  - destruct l; [reflexivity | simpl in Hlen; lia].
  - destruct l as [|a [|b [|c rest]]]; [reflexivity | ..].
    + inversion Hl as [|? ? Ha _]; subst.
      cbn [base64.b64encode base64.b64decode_fuel].
      rewrite !char_value by six_bits.
      cbn. do 2 f_equal. six_bits.
    + inversion Hl as [|? ? Ha Hl']; subst. inversion Hl' as [|? ? Hb _]; subst.
      cbn [base64.b64encode base64.b64decode_fuel].
      rewrite !char_value by six_bits. rewrite char_not_pad by six_bits.
      cbn. do 2 f_equal; [six_bits|]. f_equal. six_bits.
    + inversion Hl as [|? ? Ha Hl']; subst. inversion Hl' as [|? ? Hb Hl'']; subst.
      inversion Hl'' as [|? ? Hc Hrest]; subst.
      cbn [base64.b64encode base64.b64decode_fuel].
      rewrite !char_value by six_bits. rewrite !char_not_pad by six_bits.
      rewrite IH by (try assumption; simpl in Hlen; lia).
      do 2 f_equal; [six_bits|]. f_equal; [six_bits|]. f_equal. six_bits.
Qed.

Lemma b64encode_length (l : list Z) :
  String.length (base64.b64encode l) = (4 * ((length l + 2) / 3))%nat.
Proof.
  assert (H : forall n l, (length l <= n)%nat ->
            String.length (base64.b64encode l) = (4 * ((length l + 2) / 3))%nat).
  { clear l. induction n as [n IH] using lt_wf_ind. intros l Hn.
    destruct l as [|a [|b [|c rest]]]; try reflexivity.
    cbn [base64.b64encode String.length length].
    rewrite (IH (length rest)) by (simpl in Hn; lia).
    replace (S (S (S (length rest))) + 2)%nat with (length rest + 2 + 1 * 3)%nat by lia.
    rewrite Nat.div_add by lia. lia. }
  now apply (H (length l)).
Qed.

Lemma b64decode_encode (l : list Z) :
  Forall byte l -> base64.b64decode (base64.b64encode l) = Some l.
Proof.
  intros Hl. unfold base64.b64decode. apply b64decode_fuel_encode; [exact Hl|].
  rewrite b64encode_length.
  pose proof (Nat.div_mod_eq (length l + 2) 3).
  pose proof (Nat.mod_upper_bound (length l + 2) 3). lia.
Qed.

Lemma b64encode_alphabet (l : list Z) :
  Forall byte l -> string_forall b64_char (base64.b64encode l).
Proof.
  assert (Hc : forall n, 0 <= n < 64 -> b64_char (base64.char n)).
  { intros n Hn. left. rewrite char_value by exact Hn. eauto. }
  assert (H : forall n l, (length l <= n)%nat -> Forall byte l ->
            string_forall b64_char (base64.b64encode l)).
  { clear l. induction n as [n IH] using lt_wf_ind. intros l Hn Hl.
    destruct l as [|a [|b [|c rest]]]; [exact I | ..].
    - inversion Hl as [|? ? Ha _]; subst. cbn [base64.b64encode string_forall].
      repeat split; try (apply Hc; six_bits); now right.
    - inversion Hl as [|? ? Ha Hl']; subst. inversion Hl' as [|? ? Hb _]; subst.
      cbn [base64.b64encode string_forall].
      repeat split; try (apply Hc; six_bits); now right.
    - inversion Hl as [|? ? Ha Hl']; subst. inversion Hl' as [|? ? Hb Hl'']; subst.
      inversion Hl'' as [|? ? Hcc Hrest]; subst.
      cbn [base64.b64encode string_forall].
      split; [apply Hc; six_bits|]. split; [apply Hc; six_bits|].
      split; [apply Hc; six_bits|]. split; [apply Hc; six_bits|].
      apply (IH (length rest)); [simpl in Hn; lia | lia | exact Hrest]. }
  intros Hl. now apply (H (length l)).
Qed.

Lemma nat_of_ascii_bound c : (nat_of_ascii c < 256)%nat.
Proof. apply nat_ascii_bounded. Qed.

Lemma utf8_encode_bytes (s : string) : Forall byte (utf8.encode s).
Proof.
  induction s as [|c r IH]; [constructor|].
  cbn [utf8.encode]. apply Forall_app. split; [|exact IH].
  unfold utf8.encode_char. pose proof (nat_of_ascii_bound c).
  destruct (Z.of_nat (nat_of_ascii c) <? 128) eqn:E.
  - repeat constructor; unfold byte; lia.
  - repeat constructor; six_bits.
Qed.

Lemma utf8_decode_encode (s : string) : utf8.decode (utf8.encode s) = Some s.
Proof.
  induction s as [|c r IH]; [reflexivity|].
  cbn [utf8.encode]. unfold utf8.encode_char. pose proof (nat_of_ascii_bound c).
  destruct (Z.of_nat (nat_of_ascii c) <? 128) eqn:E.
  - cbn [app utf8.decode]. rewrite E, IH. cbn [option_map].
    now rewrite Nat2Z.id, ascii_nat_embedding.
  - cbn [app utf8.decode].
    replace (192 + Z.of_nat (nat_of_ascii c) / 64 <? 128) with false
      by (symmetry; apply Z.ltb_ge; six_bits).
    rewrite IH. cbn [option_map].
    replace ((192 + Z.of_nat (nat_of_ascii c) / 64 - 192) * 64
             + (128 + Z.of_nat (nat_of_ascii c) mod 64 - 128))
      with (Z.of_nat (nat_of_ascii c)) by six_bits.
    now rewrite Nat2Z.id, ascii_nat_embedding.
Qed.

Lemma for_range_show (e : st_utils.event) (n : nat) (w : st_utils.world) :
  st_utils.for_range n (st_utils.show e) w
  = (Done tt, st_utils.with_page (st_utils.page w ++ repeat e n) w).
Proof.
  revert w. induction n as [|n IH]; intros w.
  - cbn [st_utils.for_range repeat]. unfold W_ret. rewrite app_nil_r.
    now destruct w.
  - cbn [st_utils.for_range repeat]. unfold W_bind, st_utils.show at 1.
    rewrite IH. unfold st_utils.with_page. cbn. now rewrite <- app_assoc.
Qed.

(** X25: with Streamlit installed, [render_svg] returns after writing one
    [img] tag with HTML allowed, followed by [margin_bottom] newlines (none
    for a negative margin); the tag's payload has only characters of the
    base64 alphabet and padding, so it cannot end the attribute it is in,
    and it decodes back to the UTF-8 bytes of the picture and to the
    picture. *)
Theorem render_svg_page (svg : string) (margin_bottom : Z) (w : st_utils.world) :
  st_utils.streamlit w = true ->
  exists payload,
    st_utils.render_svg svg margin_bottom w
    = (Done tt,
       st_utils.with_page
         (st_utils.page w ++
          st_utils.write (st_utils.img_prefix +:+ payload +:+ st_utils.img_suffix) true
          :: repeat (st_utils.write st_utils.newline false) (Z.to_nat margin_bottom))
         w) /\
    string_forall b64_char payload /\
    base64.b64decode payload = Some (utf8.encode svg) /\
    utf8.decode (utf8.encode svg) = Some svg.
Proof.
  intros Hst. exists (base64.b64encode (utf8.encode svg)).
  split; [|split; [|split]].
  - unfold st_utils.render_svg, W_bind, st_utils._import_st. rewrite Hst.
    unfold st_utils.show at 1. rewrite for_range_show.
    unfold st_utils.with_page. cbn. now rewrite <- app_assoc.
  - apply b64encode_alphabet, utf8_encode_bytes.
  - apply b64decode_encode, utf8_encode_bytes.
  - apply utf8_decode_encode.
Qed.

Lemma render_svg_page_circle :
  exists payload,
    st_utils.render_svg "<svg><circle r='4'/></svg>" 3 (script_run ∅ ∅ untouched false)
    = (Done tt,
       st_utils.with_page
         (st_utils.page (script_run ∅ ∅ untouched false) ++
          st_utils.write (st_utils.img_prefix +:+ payload +:+ st_utils.img_suffix) true
          :: repeat (st_utils.write st_utils.newline false) (Z.to_nat 3))
         (script_run ∅ ∅ untouched false)) /\
    string_forall b64_char payload /\
    base64.b64decode payload = Some (utf8.encode "<svg><circle r='4'/></svg>") /\
    utf8.decode (utf8.encode "<svg><circle r='4'/></svg>")
    = Some "<svg><circle r='4'/></svg>".
Proof.
  exact (render_svg_page "<svg><circle r='4'/></svg>" 3
           (script_run ∅ ∅ untouched false) eq_refl).
Defined.

(** X26: without Streamlit installed, each helper that needs it raises
    [ValueError] at once: nothing is shown, read from the user or written to
    the session. *)
Theorem helpers_need_streamlit (w : st_utils.world) (render_endpoint_id : bool)
    (default_key default_secret default_endpoint_id svg : string) (margin_bottom : Z) :
  st_utils.streamlit w = false ->
  st_utils.check_api_credentials_set w = (Raised (builtin ValueError), w) /\
  st_utils.check_endpoint_id_set w = (Raised (builtin ValueError), w) /\
  st_utils.get_api_credential_or_use_default w = (Raised (builtin ValueError), w) /\
  st_utils.render_api_config_form render_endpoint_id default_key default_secret
    default_endpoint_id w = (Raised (builtin ValueError), w) /\
  st_utils.render_svg svg margin_bottom w = (Raised (builtin ValueError), w).
Proof.
  intros Hst.
  unfold st_utils.check_api_credentials_set, st_utils.check_endpoint_id_set,
    st_utils.get_api_credential_or_use_default, st_utils.render_api_config_form,
    st_utils.render_svg.
  rewrite !FormFacts.W_bind_eq. unfold st_utils._import_st. rewrite Hst.
  repeat split.
Qed.

Lemma helpers_need_streamlit_missing :
  let w0 :=
    {| st_utils.streamlit := false; st_utils.session_state := ∅;
       st_utils.form_submitters := ∅;
       st_utils.environ := ∅; st_utils.typed := untouched;
       st_utils.submitted := false; st_utils.page := []; st_utils.log := [] |} in
  st_utils.check_api_credentials_set w0 = (Raised (builtin ValueError), w0) /\
  st_utils.check_endpoint_id_set w0 = (Raised (builtin ValueError), w0) /\
  st_utils.get_api_credential_or_use_default w0 = (Raised (builtin ValueError), w0) /\
  st_utils.render_api_config_form false EmptyString EmptyString EmptyString w0
  = (Raised (builtin ValueError), w0) /\
  st_utils.render_svg "<svg/>" 3 w0 = (Raised (builtin ValueError), w0).
Proof.
  exact (helpers_need_streamlit
           {| st_utils.streamlit := false; st_utils.session_state := ∅;
              st_utils.form_submitters := ∅;
              st_utils.environ := ∅; st_utils.typed := untouched;
              st_utils.submitted := false; st_utils.page := []; st_utils.log := [] |}
           false EmptyString EmptyString EmptyString "<svg/>" 3 eq_refl).
Defined.
